(** * SmartBuild: the damage assessment and reporting logic of the front end

    A shallow embedding of the pieces of the React front end that compute
    something:

    - [Api]: the demo analysis of [services/api.js] ([mockAnalyzeImage]);
    - [Dashboard]: [computeStats], [handleDeleteInspection] and
      [getDamageType] of the dashboard component;
    - [Result]: [handleDownloadPDF] of the result page, over a report
      generator that the section takes as a variable;
    - [PdfGenerator]: the report generator, whose source is not part of the
      front-end files at hand.
    - [DashboardPage], [ResultPage]: loading the history and what the pages
      show of a record;
    - [ScoreJson]: the score sum of [computeStats] over every value a
      response can put in a [health_score];
    - [UploadZone], [App], [Signup]: the file check of the upload zone, the
      routes and the stored session of the application shell, the
      validation of the signup form.

    Conventions of the embedding.  JavaScript numbers that hold counts,
    penalties and scores are integers of [Z] (exact in double precision far
    beyond the magnitudes met here); a quotient is a rational of [Q].  An
    object used as a dictionary is a [gmap] over its own properties: a read
    [o[k]] agrees with the lookup [o !! k] for every key [k] that is not the
    name of a member every object inherits ([Js.inheritedNames]), and a
    statement that reads a dictionary at keys it does not fix carries
    [Js.ownKinds] or [Js.ownName] as a hypothesis.  Iteration order is the
    map's, and every fold below is insensitive to it.  A property that may
    be missing is an [option], with [None] for [undefined]. *)

From Stdlib Require Import ZArith QArith Qround String List Lia DecimalString.
From stdpp Require Import gmap strings list fin_maps.

Open Scope string_scope.
Open Scope list_scope.
Open Scope Z_scope.

(** ** JavaScript idioms shared by the components *)

Module Js.

(** [x || 0] for a property read [x] of a dictionary of numbers: a missing
    property and the number [0] are both falsy. *)
Definition or0 (x : option Z) : Z :=
  match x with
  | Some n => if n =? 0 then 0 else n
  | None => 0
  end.

(** [Object.keys(o)] and [Array.prototype.includes]. *)
Definition keys {A} (o : gmap string A) : list string := (map_to_list o).*1.

Definition includes (l : list string) (k : string) : bool := bool_decide (k ∈ l).

(** [Math.round]: the nearest integer, a tie going up. *)
Definition Math_round (q : Q) : Z := Qfloor (q + (1 # 2)).

(** How a promise, or a call inside [try], ends. *)
Inductive Outcome (A E : Type) : Type :=
| Resolved (a : A)
| Rejected (e : E).
Arguments Resolved {A E} a.
Arguments Rejected {A E} e.

(** The members every object inherits from [Object.prototype]: read at one
    of these names, an object literal that has no such key of its own gives
    the inherited function (or, for [__proto__], the prototype), not
    [undefined]. *)
Definition inheritedNames : list string :=
  ["constructor"; "hasOwnProperty"; "isPrototypeOf"; "propertyIsEnumerable";
   "toLocaleString"; "toString"; "valueOf"; "__proto__"; "__defineGetter__";
   "__defineSetter__"; "__lookupGetter__"; "__lookupSetter__"].

(** A key, and a dictionary, away from those names: there [o[k]] is the
    lookup [o !! k]. *)
Definition ownName (k : string) : Prop := k ∉ inheritedNames.

Definition ownKinds {A} (o : gmap string A) : Prop :=
  Forall (λ k, o !! k = None) inheritedNames.

End Js.

(** ** services/api.js: the demo analysis *)

Module Api.

Definition mockDamages : list string :=
  ["minor_crack"; "major_crack"; "spalling"; "peeling"; "algae"; "stain"; "normal"].

(** [detected[damage] = (detected[damage] || 0) + 1], for a [damage] that
    is no inherited name ([Js.ownName]); the loop draws no other. *)
Definition bump (detected : gmap string Z) (damage : string) : gmap string Z :=
  <[damage := Js.or0 (detected !! damage) + 1]> detected.

Definition penalties : gmap string Z :=
  {[ "major_crack" := 15; "minor_crack" := 8; "spalling" := 20;
     "peeling" := 10; "algae" := 5; "stain" := 5; "normal" := 0 ]}.

(** [Object.values(detected).reduce((a, b) => a + b, 0)]. *)
Definition count (detected : gmap string Z) : Z :=
  map_fold (λ _ b a, a + b) 0 detected.

(** The [forEach] over [Object.keys(detected)], from a starting [score],
    for a dictionary whose keys are no inherited names ([Js.ownKinds]): at
    such a key [penalties[d]] would be a function and the score not a
    number. *)
Definition penalise (detected : gmap string Z) (score : Z) : Z :=
  map_fold (λ d n score, score - Js.or0 (penalties !! d) * n) score detected.

Record Analysis := {
  detected_damages : gmap string Z;
  severity : string;
  health_score : Z;
  precautions : list string
}.

(** The part of [mockAnalyzeImage] after the random draw: from the
    dictionary [detected] to the resolved value. *)
Definition analyse (detected : gmap string Z) : Analysis :=
  let count := count detected in
  let '(severity, score) :=
    if 0 <? count then
      let score := Z.max (penalise detected 100) 0 in
      (if count <=? 2 then "Moderate" else "Critical", score)
    else ("Good", 100) in
  {| detected_damages := detected;
     severity := severity;
     health_score := score;
     precautions := ["Regular inspection recommended";
                     "Monitor damaged areas monthly";
                     "Consider professional assessment"] |}.

(** The promise is built with a [resolve] callback only: the executor has
    no way to reject, and nothing in it throws. *)
Definition settle (detected : gmap string Z) : Js.Outcome Analysis string :=
  Js.Resolved (analyse detected).

Section Demo.
(** [random_floor i k] is the value of the [i]-th evaluation of
    [Math.floor(Math.random() * k)]. *)
Variable random_floor : nat → nat → nat.

Definition numDamages : nat := (random_floor 0 3 + 1)%nat.

(** An index past the end of the array reads [undefined], which as a
    property name is the string of that spelling. *)
Definition draw (i : nat) : string :=
  default "undefined" (mockDamages !! random_floor (S i) 7).

Definition detect : gmap string Z :=
  foldl bump ∅ (draw <$> seq 0 numDamages).

Definition mockAnalyzeImage : Js.Outcome Analysis string := settle detect.
End Demo.

End Api.

(** ** The dashboard component: statistics, deletion, damage labels *)

Module Dashboard.

(** What a [health_score] property holds in the history of assessments: an
    integer, or one of the values standing for its absence.  The other
    values a response can carry (strings, booleans, objects) are those of
    [ScoreJson] below. *)
Inductive JsVal :=
| JUndefined
| JNull
| JNaN
| JNum (z : Z).

Definition falsy (v : JsVal) : bool :=
  match v with
  | JNum z => z =? 0
  | _ => true
  end.

(** [v || 0], the result being a number in every case. *)
Definition or0 (v : JsVal) : Z :=
  match v with
  | JNum z => if falsy v then 0 else z
  | _ => 0
  end.

Record Inspection := {
  _id : option string;
  id : option string;
  detected_damages : option (gmap string Z);
  severity : option string;
  health_score : JsVal
}.

Record Stats := {
  totalInspections : nat;
  averageScore : Z;
  severityCount : gmap string nat
}.

(** [list.reduce((sum, insp) => sum + (insp.health_score || 0), 0)]. *)
Definition scoreSum (list : list Inspection) : Z :=
  foldl (λ sum insp, sum + or0 (health_score insp)) 0 list.

(** [list.filter((i) => i.severity === tier).length]. *)
Definition tierCount (tier : string) (list : list Inspection) : nat :=
  length (List.filter (λ i, bool_decide (severity i = Some tier)) list).

(** The value [computeStats] hands to [setStats]; [None] is [null], both
    for the argument and for the statistics. *)
Definition computeStats (list : option (list Inspection)) : option Stats :=
  match list with
  | None | Some [] => None
  | Some list =>
      let total := length list in
      let avgScore := (inject_Z (scoreSum list) / inject_Z (Z.of_nat total))%Q in
      let severityCount : gmap string nat :=
        {[ "Good" := tierCount "Good" list;
           "Moderate" := tierCount "Moderate" list;
           "Critical" := tierCount "Critical" list ]} in
      Some {| totalInspections := total;
              averageScore := Js.Math_round avgScore;
              severityCount := severityCount |}
  end.

(** The two pieces of component state the handlers below write. *)
Record State := {
  inspections : list Inspection;
  stats : option Stats
}.

(** [insp._id || insp.id]: the empty string is falsy like [undefined]. *)
Definition ident (insp : Inspection) : option string :=
  match _id insp with
  | Some s => if bool_decide (s = "") then id insp else Some s
  | None => id insp
  end.

(** [inspections.filter((insp) => (insp._id || insp.id) !== id)]. *)
Definition remaining (inspections : list Inspection) (id : option string) : list Inspection :=
  List.filter (λ insp, negb (bool_decide (ident insp = id))) inspections.

(** How the DELETE request of [handleDeleteInspection] went.  The handler
    below is the one of the render that shows the state it is applied to:
    no other deletion is in flight.  [DashboardPage.handleDeleteInspectionOf]
    takes the captured list apart from the state. *)
Inductive DeleteReply :=
| NoAuthHeader
| RequestThrew
| NotOk (status : Z)
| Ok.

Definition handleDeleteInspection (reply : DeleteReply) (id : option string) (st : State) : State :=
  match reply with
  | Ok =>
      let remaining := remaining (inspections st) id in
      {| inspections := remaining; stats := computeStats (Some remaining) |}
  | _ => st
  end.

Definition getDamageType (damages : option (gmap string Z)) : string :=
  match damages with
  | None => "No Damage"
  | Some damages =>
      if (length (Js.keys damages) =? 0)%nat then "No Damage"
      else
        let damageTypes := Js.keys damages in
        if Js.includes damageTypes "major_crack" || Js.includes damageTypes "spalling"
        then "Critical Damage"
        else if Js.includes damageTypes "minor_crack" || Js.includes damageTypes "peeling"
        then "Surface Damage"
        else "Minor Damage"
  end.

End Dashboard.

(** ** The result page: downloading the report *)

Module Result.

(** The second argument of [generateInspectionReport]. *)
Record ReportOptions := {
  inspectionId : option string;
  filename : option string;
  imageDataUrl : option string
}.

Section Download.
(** The generator is imported from [utils/pdfGenerator]: it returns the name
    of the file it saved, or throws. *)
Variable generateInspectionReport :
  Api.Analysis → ReportOptions → Js.Outcome string string.

(** The text [handleDownloadPDF] passes to [alert]. *)
Definition handleDownloadPDF (analysis : Api.Analysis) (opts : ReportOptions) : string :=
  match generateInspectionReport analysis opts with
  | Js.Resolved fileNameOut => ("PDF report downloaded: " ++ fileNameOut)%string
  | Js.Rejected _ => "Failed to generate PDF report"
  end.
End Download.

End Result.

(** ** The report generator *)

Module PdfGenerator.

Section Exporter.
(** Decoded image data, and the two things the exporter relies on: reading
    an image reference ([None] when it cannot be read) and the scheme that
    names the file. *)
Variable Image : Type.
Variable readImage : string → option Image.
Variable fileNameFor : Result.ReportOptions → string.

Record Document := {
  severityLabel : string;
  scoreNumber : Z;
  scoreIndicator : Q;
  damages : list (string * Z);
  precautionList : list string;
  embedded : option Image
}.

Record Export := {
  document : Document;
  fileName : string;
  warning : option string
}.

(** Modelled from the spec: the embedding step of the report exporter, whose
    module [utils/pdfGenerator] is absent.  The image is optional; when the
    reference is absent or cannot be read the report stays text-only and a
    warning is reported. *)
Definition embedImage (opts : Result.ReportOptions) : option Image * option string :=
  match Result.imageDataUrl opts with
  | None => (None, Some "Source image absent: text-only report")
  | Some ref =>
      match readImage ref with
      | Some img => (Some img, None)
      | None => (None, Some "Source image unreadable: text-only report")
      end
  end.

(** Modelled from the spec: the report exporter [export(assessment,
    metadata)], whose module [utils/pdfGenerator] is absent.  The document
    carries the severity label, the score as a number and as a proportion,
    the detected kinds with their counts and the precautions in their
    order; the export completes whatever the state of the image. *)
Definition export (analysis : Api.Analysis) (opts : Result.ReportOptions) : Export :=
  let '(img, warn) := embedImage opts in
  {| document :=
       {| severityLabel := Api.severity analysis;
          scoreNumber := Api.health_score analysis;
          scoreIndicator := (inject_Z (Api.health_score analysis) / 100)%Q;
          damages := map_to_list (Api.detected_damages analysis);
          precautionList := Api.precautions analysis;
          embedded := img |};
     fileName := fileNameFor opts;
     warning := warn |}.

(** Modelled from the spec: [generateInspectionReport] as its caller sees
    it, the export never being a hard failure. *)
Definition generateInspectionReport (analysis : Api.Analysis) (opts : Result.ReportOptions)
  : Js.Outcome string string :=
  Js.Resolved (fileName (export analysis opts)).
End Exporter.

Arguments severityLabel {Image} _.
Arguments scoreNumber {Image} _.
Arguments scoreIndicator {Image} _.
Arguments damages {Image} _.
Arguments precautionList {Image} _.
Arguments embedded {Image} _.
Arguments document {Image} _.
Arguments fileName {Image} _.
Arguments warning {Image} _.
Arguments embedImage {Image} readImage opts.
Arguments export {Image} readImage fileNameFor analysis opts.
Arguments generateInspectionReport {Image} readImage fileNameFor analysis opts.

End PdfGenerator.

(** ** The vocabulary of the specification *)

Module Catalog.

(** The catalog weight of a damage kind, [0] for a kind it does not list. *)
Definition weightOf (kind : string) : Z :=
  if bool_decide (kind = "major_crack") then 15
  else if bool_decide (kind = "minor_crack") then 8
  else if bool_decide (kind = "spalling") then 20
  else if bool_decide (kind = "peeling") then 10
  else if bool_decide (kind = "algae") then 5
  else if bool_decide (kind = "stain") then 5
  else 0.

(** The kinds whose tier hint is Critical: the structural ones. *)
Definition structural (kind : string) : bool :=
  bool_decide (kind = "major_crack") || bool_decide (kind = "spalling").

Definition Zsum (l : list Z) : Z := foldr Z.add 0 l.

(** The total of all counts, and the sum of weight times count over the
    pairs of a mapping. *)
Definition total (counts : gmap string Z) : Z :=
  Zsum (map_to_list counts).*2.

Definition penaltySum (counts : gmap string Z) : Z :=
  Zsum ((λ kn, weightOf kn.1 * kn.2) <$> map_to_list counts).

(** Every count of the mapping is non-negative. *)
Definition nonNegative (counts : gmap string Z) : Prop :=
  map_Forall (λ _ n, 0 ≤ n) counts.

(** Rounding the quotient [s / n] half-up, in integer arithmetic. *)
Definition roundHalfUp (s n : Z) : Z := (2 * s + n) / (2 * n).

End Catalog.

(** ** Sample data for the worked instances *)

Module Samples.
Import Dashboard.

Definition sampleInspection (name : string) (tier : string) (score : Z) : Inspection :=
  {| _id := Some name; id := None; detected_damages := None;
     severity := Some tier; health_score := JNum score |}.

Definition unscoredInspection (name : string) (tier : string) : Inspection :=
  {| _id := Some name; id := None; detected_damages := None;
     severity := Some tier; health_score := JUndefined |}.

End Samples.

(** ** The dashboard page: loading the history, the rows it shows *)

Module DashboardPage.
Import Dashboard.

(** How the GET request of [fetchInspections] went; a good response carries
    the [inspections] property of its body, which may be missing. *)
Inductive FetchReply :=
| FetchNoAuthHeader
| FetchThrew
| FetchNotOk (status : Z)
| FetchOk (inspections : option (list Inspection)).

(** [const list = data.inspections || []; setInspections(list);
    computeStats(list)]; every other path returns before writing. *)
Definition fetchInspections (reply : FetchReply) (st : State) : State :=
  match reply with
  | FetchOk data =>
      let list := default [] data in
      {| inspections := list; stats := computeStats (Some list) |}
  | _ => st
  end.

(** [useState([])] and [useState(null)]. *)
Definition initialState : State := {| inspections := []; stats := None |}.

(** The two handlers that write the history, one after the other. *)
Inductive Event :=
| Fetch (reply : FetchReply)
| Delete (reply : DeleteReply) (id : option string).

Definition handle (st : State) (e : Event) : State :=
  match e with
  | Fetch reply => fetchInspections reply st
  | Delete reply id => handleDeleteInspection reply id st
  end.

Definition run (events : list Event) : State := foldl handle initialState events.

(** [inspections.slice(0, 5)]. *)
Definition recent (inspections : list Inspection) : list Inspection :=
  take 5 inspections.

(** [inspection.severity || "Moderate"]. *)
Definition shownSeverity (inspection : Inspection) : string :=
  match severity inspection with
  | Some s => if bool_decide (s = "") then "Moderate" else s
  | None => "Moderate"
  end.

(** [inspection.health_score || 75]. *)
Definition shownScore (inspection : Inspection) : Z :=
  match health_score inspection with
  | JNum z => if falsy (JNum z) then 75 else z
  | _ => 75
  end.

(** The records a severity filter of [computeStats] can count. *)
Definition tiered (inspection : Inspection) : bool :=
  bool_decide (severity inspection = Some "Good")
  || bool_decide (severity inspection = Some "Moderate")
  || bool_decide (severity inspection = Some "Critical").

(** [handleDeleteInspection] as created by one render: [captured] is the
    [inspections] of that render, and it is this list that the continuation
    filters when the reply arrives, whatever the state has become since. *)
Definition handleDeleteInspectionOf (captured : list Inspection)
    (reply : DeleteReply) (id : option string) (st : State) : State :=
  match reply with
  | Ok =>
      let remaining := remaining captured id in
      {| inspections := remaining; stats := computeStats (Some remaining) |}
  | _ => st
  end.

End DashboardPage.

(** ** Health scores as a response can carry them *)

Module ScoreJson.

(** The value of a [health_score] property: missing, a JSON scalar or a
    plain object; [SNaN] is there for the values of [Dashboard.JsVal].
    Arrays are left out. *)
Inductive Score :=
| SUndefined
| SNull
| SNaN
| SBool (b : bool)
| SNumber (z : Z)
| SText (s : string)
| SObject.

Definition truthy (v : Score) : bool :=
  match v with
  | SBool b => b
  | SNumber z => negb (z =? 0)
  | SText s => negb (bool_decide (s = ""))
  | SObject => true
  | _ => false
  end.

(** The right operand [insp.health_score || 0]: the value itself when it is
    truthy, the number 0 otherwise. *)
Inductive Operand :=
| ONumber (n : Z)
| OTrue
| OText (s : string)
| OObject.

Definition orZero (v : Score) : Operand :=
  match v with
  | SNumber z => if truthy v then ONumber z else ONumber 0
  | SBool true => OTrue
  | SText s => if truthy v then OText s else ONumber 0
  | SObject => OObject
  | _ => ONumber 0
  end.

(** The running [sum] of the reduction: a number until a string or an
    object is added, a string from then on. *)
Inductive Sum :=
| Num (z : Z)
| Str (s : string).

(** [String(z)] for an integer, in decimal (the form JavaScript uses below
    10^21 in magnitude). *)
Definition numberToString (z : Z) : string :=
  NilZero.string_of_int (Z.to_int z).

(** [sum + x]: an addition of numbers, [true] counting as 1, unless one side
    is a string or an object, which makes it a concatenation. *)
Definition plus (sum : Sum) (x : Operand) : Sum :=
  match sum, x with
  | Num a, ONumber n => Num (a + n)
  | Num a, OTrue => Num (a + 1)
  | Num a, OText s => Str (numberToString a ++ s)
  | Num a, OObject => Str (numberToString a ++ "[object Object]")
  | Str t, ONumber n => Str (t ++ numberToString n)
  | Str t, OTrue => Str (t ++ "true")
  | Str t, OText s => Str (t ++ s)
  | Str t, OObject => Str (t ++ "[object Object]")
  end.

(** [list.reduce((sum, insp) => sum + (insp.health_score || 0), 0)] over the
    [health_score] properties of the list. *)
Definition scoreSum (scores : list Score) : Sum :=
  foldl (λ sum v, plus sum (orZero v)) (Num 0) scores.

(** [Math.round(avgScore)]: an integer when the sum is a number; for a
    string sum the quotient is read off the string, which is left as it
    is. *)
Inductive Average :=
| Rounded (a : Z)
| OfText (t : string).

(** The [averageScore] of [computeStats]; [None] for the empty list, which
    returns before. *)
Definition averageScore (scores : list Score) : option Average :=
  match scores with
  | [] => None
  | _ =>
      Some match scoreSum scores with
           | Num a =>
               Rounded (Js.Math_round
                          (inject_Z a / inject_Z (Z.of_nat (length scores))))
           | Str t => OfText t
           end
  end.

(** The scores of [Dashboard.JsVal] among these. *)
Definition ofJsVal (v : Dashboard.JsVal) : Score :=
  match v with
  | Dashboard.JUndefined => SUndefined
  | Dashboard.JNull => SNull
  | Dashboard.JNaN => SNaN
  | Dashboard.JNum z => SNumber z
  end.

(** A score that is missing, not a number, or falsy in another way: all but
    a number other than zero. *)
Definition unusable (v : Score) : bool :=
  match v with
  | SNumber z => z =? 0
  | _ => true
  end.

(** A score that is a number or is falsy, and the number it counts for. *)
Definition numericOrFalsy (v : Score) : bool :=
  match v with
  | SNumber _ => true
  | _ => negb (truthy v)
  end.

Definition counted (v : Score) : Z :=
  match v with
  | SNumber z => z
  | _ => 0
  end.

End ScoreJson.

(** ** The result page: what it shows of the damages *)

Module ResultPage.

(** [const damages = analysis.detected_damages || {}] and the test
    [Object.keys(damages).length === 0] that shows "No Damages Detected!". *)
Definition noDamagesShown (detected_damages : option (gmap string Z)) : bool :=
  let damages := default ∅ detected_damages in
  (length (Js.keys damages) =? 0)%nat.

End ResultPage.

(** ** More sample data *)

Module MoreSamples.
Import Dashboard Samples.

Definition sixInspections : list Inspection :=
  [sampleInspection "a" "Good" 90; sampleInspection "b" "Moderate" 70;
   sampleInspection "c" "Critical" 50; unscoredInspection "d" "Good";
   sampleInspection "e" "Good" 100; sampleInspection "f" "Moderate" 65].

End MoreSamples.

(** ** The upload zone: which file is read *)

Module UploadZone.

(** What [processFile] looks at of a [File]: its MIME type and its size in
    bytes. *)
Record File := {
  type : string;
  size : Z
}.

Definition validTypes : list string :=
  ["image/jpeg"; "image/png"; "image/webp"; "image/jpg"].

(** Either an [alert], or the file handed to the reader (which calls
    [onImageUpload] when it is done). *)
Inductive Processed :=
| Alert (message : string)
| Read (file : File).

Definition processFile (file : File) : Processed :=
  if negb (Js.includes validTypes (type file))
  then Alert "Please upload a valid image (JPG, PNG, WebP)"
  else if 10 * 1024 * 1024 <? size file
  then Alert "Image size should be less than 10MB"
  else Read file.

(** [const file = e.dataTransfer.files?.[0]; if (file) processFile(file)],
    the same for [handleDrop] and [handleFileSelect]; [None] when nothing
    happens. *)
Definition handleDrop (files : option (list File)) : option Processed :=
  match files ≫= head with
  | Some file => Some (processFile file)
  | None => None
  end.

End UploadZone.

(** ** The application shell: routes and the stored session *)

Module App.

Inductive Route := Home | LoginRoute | SignupRoute | DashboardRoute | ResultRoute.

(** The [path] of each [<Route>]. *)
Definition path (r : Route) : string :=
  match r with
  | Home => "/"
  | LoginRoute => "/login"
  | SignupRoute => "/signup"
  | DashboardRoute => "/dashboard"
  | ResultRoute => "/result"
  end.

Inductive Page := Landing | Login | Signup | Dashboard | Result.

(** The [element] of a route: a page, or a [<Navigate to=...>] to the route
    with that path. *)
Inductive Element :=
| Render (page : Page)
| Navigate (to : Route).

Definition element {User} (user : option User) (r : Route) : Element :=
  match r with
  | Home => if user is Some _ then Navigate DashboardRoute else Render Landing
  | LoginRoute => if user is Some _ then Navigate DashboardRoute else Render Login
  | SignupRoute => if user is Some _ then Navigate DashboardRoute else Render Signup
  | DashboardRoute => if user is Some _ then Render Dashboard else Navigate LoginRoute
  | ResultRoute => if user is Some _ then Render Result else Navigate LoginRoute
  end.

(** The page on screen after following at most [hops] redirects; [None]
    when a redirect is still pending. *)
Fixpoint settle {User} (hops : nat) (user : option User) (r : Route) : option Page :=
  match element user r with
  | Render page => Some page
  | Navigate to =>
      match hops with
      | O => None
      | S hops => settle hops user to
      end
  end.

Section Session.
Context {User : Type}.
(** [JSON.stringify] on a user object and [JSON.parse] on a stored string,
    which yields a value, possibly [null], or throws. *)
Variable stringify : User → string.
Variable parse : string → Js.Outcome (option User) string.

Record Session := {
  user : option User;
  localStorage : gmap string string
}.

(** [handleLogin] and [handleSignup] are the same function. *)
Definition handleLogin (userData : User) (s : Session) : Session :=
  {| user := Some userData;
     localStorage := <["buildingInspectionUser" := stringify userData]> (localStorage s) |}.

Definition handleLogout (s : Session) : Session :=
  {| user := None;
     localStorage := delete "buildingInspectionUser" (localStorage s) |}.

(** A page load: the component state starts at [null] and the effect reads
    the stored user, an empty string being falsy like a missing item. *)
Definition load (storage : gmap string string) : Js.Outcome Session string :=
  match storage !! "buildingInspectionUser" with
  | Some storedUser =>
      if bool_decide (storedUser = "") then Js.Resolved {| user := None; localStorage := storage |}
      else match parse storedUser with
           | Js.Resolved u => Js.Resolved {| user := u; localStorage := storage |}
           | Js.Rejected e => Js.Rejected e
           end
  | None => Js.Resolved {| user := None; localStorage := storage |}
  end.

(** The success path of the login form: the token is stored, then
    [onLogin] runs. *)
Definition signIn (idToken : string) (userData : User) (s : Session) : Session :=
  handleLogin userData
    {| user := user s; localStorage := <["token" := idToken]> (localStorage s) |}.

(** [handleLogout] of the navigation bar: both items are removed, then
    [onLogout] runs and the browser goes to the home route. *)
Definition signOut (s : Session) : Session * Route :=
  let storage := delete "buildingInspectionUser" (delete "token" (localStorage s)) in
  (handleLogout {| user := user s; localStorage := storage |}, Home).
End Session.

End App.

(** ** The signup form: validation and error messages *)

Module Signup.

Section Form.
(** A form field is a JavaScript string, a sequence of code units; its
    [length] counts them. *)
Context {CodeUnit : Type} `{EqDecision CodeUnit}.

Record FormData := {
  name : list CodeUnit;
  email : list CodeUnit;
  password : list CodeUnit;
  confirmPassword : list CodeUnit
}.

Record View := {
  loading : bool;
  success : bool;
  errorMsg : string
}.

(** How the [try] block went: every call succeeded, or one threw an error
    with an optional [code] and [message]. *)
Inductive Attempt :=
| Created
| Threw (code : option string) (message : option string).

(** The message of the [catch] block. *)
Definition errorMessage (code : option string) (message : option string) : string :=
  if bool_decide (code = Some "auth/email-already-in-use") then "Email already in use"
  else if bool_decide (code = Some "auth/invalid-email") then "Invalid email"
  else if bool_decide (code = Some "auth/weak-password") then "Weak password (min 6 chars)"
  else match message with
       | Some m => if bool_decide (m = "") then "Signup failed. Please try again." else m
       | None => "Signup failed. Please try again."
       end.

(** Whether [handleSubmit] gets as far as calling Firebase. *)
Definition attempts (formData : FormData) : bool :=
  bool_decide (password formData = confirmPassword formData)
  && negb (length (password formData) <? 6)%nat.

(** The view once [handleSubmit] has run to its end. *)
Definition handleSubmit (formData : FormData) (attempt : Attempt) (v : View) : View :=
  if negb (bool_decide (password formData = confirmPassword formData))
  then {| loading := loading v; success := success v;
          errorMsg := "Passwords do not match" |}
  else if (length (password formData) <? 6)%nat
  then {| loading := loading v; success := success v;
          errorMsg := "Password must be at least 6 characters" |}
  else match attempt with
       | Created => {| loading := false; success := true; errorMsg := "" |}
       | Threw code message =>
           {| loading := false; success := false;
              errorMsg := errorMessage code message |}
       end.
End Form.

End Signup.

(** * Properties *)

(** ** The demo analysis *)

Section ApiFacts.
Import Api Catalog.

Lemma or0_penalties (d : string) : Js.or0 (penalties !! d) = weightOf d.
Proof.
  unfold weightOf, penalties.
  repeat (case_bool_decide; [subst; vm_compute; reflexivity|]).
  rewrite !lookup_insert_ne by done.
  destruct (decide (d = "normal")) as [->|Hn].
  - by rewrite lookup_singleton_eq.
  - by rewrite lookup_singleton_ne.
Qed.

Lemma count_total (detected : gmap string Z) : count detected = total detected.
Proof.
  unfold count, total. rewrite map_fold_foldr.
  induction (map_to_list detected) as [|[k n] l IH]; csimpl; [done|].
  rewrite IH. apply Z.add_comm.
Qed.

Lemma penalise_penaltySum (detected : gmap string Z) (score : Z) :
  penalise detected score = score - penaltySum detected.
Proof.
  unfold penalise, penaltySum. rewrite map_fold_foldr.
  induction (map_to_list detected) as [|[k n] l IH]; csimpl; [lia|].
  rewrite IH, or0_penalties. lia.
Qed.

Lemma weightOf_nonneg (kind : string) : 0 ≤ weightOf kind.
Proof. unfold weightOf. repeat case_bool_decide; lia. Qed.

Lemma nonNegative_list (counts : gmap string Z) :
  nonNegative counts → Forall (λ kn : string * Z, 0 ≤ kn.2) (map_to_list counts).
Proof.
  intros H. apply Forall_forall. intros [k n] Hin. simpl.
  apply elem_of_map_to_list in Hin. exact (H k n Hin).
Qed.

Lemma Zsum_nonneg (l : list Z) : Forall (λ n, 0 ≤ n) l → 0 ≤ Zsum l.
Proof. induction 1; simpl; lia. Qed.

Lemma Zsum_elem_le (l : list Z) (x : Z) :
  Forall (λ n, 0 ≤ n) l → x ∈ l → x ≤ Zsum l.
Proof.
  induction 1 as [|y l Hy Hl IH]; intros Hin.
  - by apply elem_of_nil in Hin.
  - apply elem_of_cons in Hin as [->|Hin]; simpl.
    + pose proof (Zsum_nonneg l Hl). lia.
    + specialize (IH Hin). lia.
Qed.

Lemma total_nonneg (counts : gmap string Z) : nonNegative counts → 0 ≤ total counts.
Proof.
  intros H. apply Zsum_nonneg, Forall_fmap.
  exact (nonNegative_list counts H).
Qed.

Lemma lookup_le_total (counts : gmap string Z) (kind : string) (n : Z) :
  nonNegative counts → counts !! kind = Some n → n ≤ total counts.
Proof.
  intros H Hk. apply Zsum_elem_le.
  - apply Forall_fmap. exact (nonNegative_list counts H).
  - apply list_elem_of_fmap. exists (kind, n). split; [done|].
    by apply elem_of_map_to_list.
Qed.

Lemma penaltySum_nonneg (counts : gmap string Z) :
  nonNegative counts → 0 ≤ penaltySum counts.
Proof.
  intros H. apply Zsum_nonneg, Forall_fmap.
  eapply Forall_impl; [exact (nonNegative_list counts H)|].
  intros [k n] Hn; simpl in *. pose proof (weightOf_nonneg k). nia.
Qed.

(** With non-negative counts, a total of zero leaves nothing to subtract. *)
Lemma penaltySum_no_detection (counts : gmap string Z) :
  nonNegative counts → total counts ≤ 0 → penaltySum counts = 0.
Proof.
  intros H. unfold total, penaltySum.
  induction (nonNegative_list counts H) as [|[k n] l Hn Hl IH]; csimpl; [done|].
  simpl in Hn. intros Hle.
  assert (0 ≤ Zsum l.*2) by (apply Zsum_nonneg, Forall_fmap; exact Hl).
  rewrite IH by lia. replace n with 0 by lia. lia.
Qed.

(** The two results of [analyse] in terms of the total and the weighted sum,
    for counts of any sign. *)
Lemma analyse_severity (counts : gmap string Z) :
  severity (analyse counts) =
    if 0 <? total counts
    then (if total counts <=? 2 then "Moderate" else "Critical")
    else "Good".
Proof.
  unfold analyse. rewrite count_total. by destruct (0 <? total counts).
Qed.

Lemma analyse_health_score (counts : gmap string Z) :
  health_score (analyse counts) =
    if 0 <? total counts then Z.max 0 (100 - penaltySum counts) else 100.
Proof.
  unfold analyse. rewrite count_total, penalise_penaltySum.
  destruct (0 <? total counts); simpl; [lia|done].
Qed.

Lemma keys_includes {A} (o : gmap string A) (k : string) :
  Js.includes (Js.keys o) k = bool_decide (is_Some (o !! k)).
Proof.
  unfold Js.includes, Js.keys. apply bool_decide_ext.
  rewrite list_elem_of_fmap. split.
  - intros [[k' a] [-> Hin]]. apply elem_of_map_to_list in Hin. by exists a.
  - intros [a Ha]. exists (k, a). split; [done|]. by apply elem_of_map_to_list.
Qed.

End ApiFacts.

(** ** What the random draw can produce *)

Section DemoFacts.
Import Api Catalog.

Lemma count_insert_fresh (detected : gmap string Z) (damage : string) (n : Z) :
  detected !! damage = None → count (<[damage := n]> detected) = count detected + n.
Proof.
  intros Hfresh. unfold count.
  rewrite map_fold_insert_L; [reflexivity| |exact Hfresh].
  intros. lia.
Qed.

Lemma count_bump (detected : gmap string Z) (damage : string) :
  count (bump detected damage) = count detected + 1.
Proof.
  unfold bump. destruct (detected !! damage) as [n|] eqn:Hd.
  - rewrite <- (insert_delete_id detected damage n Hd) at 2.
    rewrite <- insert_delete_eq.
    rewrite !count_insert_fresh by apply lookup_delete_eq.
    simpl. destruct (Z.eqb_spec n 0); lia.
  - rewrite count_insert_fresh by exact Hd. simpl. lia.
Qed.

Lemma count_foldl_bump (picks : list string) (detected : gmap string Z) :
  count (foldl bump detected picks) = count detected + Z.of_nat (length picks).
Proof.
  revert detected. induction picks as [|damage picks IH]; intros detected; simpl.
  - lia.
  - rewrite IH, count_bump. lia.
Qed.

(** X1: whatever the random draws, the demo detects as many damages as it
    decided to, at least one: its severity is never "Good". *)
Lemma mockAnalyzeImage_detects (random_floor : nat → nat → nat) :
  count (detect random_floor) = Z.of_nat (numDamages random_floor) ∧
  ∃ a, mockAnalyzeImage random_floor = Js.Resolved a ∧ severity a ≠ "Good".
Proof.
  assert (Hcount : count (detect random_floor) = Z.of_nat (numDamages random_floor)).
  { unfold detect. rewrite count_foldl_bump, length_fmap, length_seq.
    unfold count. rewrite map_fold_empty. lia. }
  split; [exact Hcount|].
  exists (analyse (detect random_floor)). split; [reflexivity|].
  unfold analyse. rewrite Hcount. unfold numDamages.
  destruct (0 <? _) eqn:E; [|apply Z.ltb_ge in E; lia].
  by destruct (_ <=? 2).
Qed.
End DemoFacts.

Section ApiClaims.
Import Api Catalog.

(** C1, as stated, fails: a structural kind with a count of at least one does
    not force the severity to Critical.  The mapping [{major_crack: 1}] has
    total 1 and is classified Moderate. *)
Lemma structural_kind_not_always_critical :
  ¬ (∀ (counts : gmap string Z) (kind : string) (n : Z),
       nonNegative counts → structural kind = true →
       counts !! kind = Some n → 1 ≤ n →
       severity (analyse counts) = "Critical").
Proof.
  intros H.
  specialize (H {[ "major_crack" := 1 ]} "major_crack" 1).
  assert (Hsev : severity (analyse {[ "major_crack" := 1 ]}) = "Critical").
  { apply H.
    - by apply map_Forall_singleton.
    - reflexivity.
    - by rewrite lookup_singleton_eq.
    - lia. }
  vm_compute in Hsev. discriminate Hsev.
Qed.

(** C1, amended: for non-negative counts with a structural kind (major_crack
    or spalling) counted at least once, the damage label of the dashboard is
    "Critical Damage", while the severity follows the total alone: Moderate
    for a total of 1 or 2, Critical above 2. *)
Theorem structural_kind_severity (counts : gmap string Z) (kind : string) (n : Z) :
  nonNegative counts → structural kind = true →
  counts !! kind = Some n → 1 ≤ n →
  Dashboard.getDamageType (Some counts) = "Critical Damage" ∧
  severity (analyse counts) =
    (if total counts <=? 2 then "Moderate" else "Critical").
Proof.
  intros Hnn Hs Hk Hn. split.
  - unfold Dashboard.getDamageType.
    assert (Hin : kind ∈ Js.keys counts).
    { apply list_elem_of_fmap. exists (kind, n). split; [done|].
      by apply elem_of_map_to_list. }
    assert (Hlen : (length (Js.keys counts) =? 0)%nat = false).
    { destruct (Js.keys counts); [by apply elem_of_nil in Hin|done]. }
    rewrite Hlen, !keys_includes.
    unfold structural in Hs. apply orb_true_iff in Hs as [Hs|Hs];
      apply bool_decide_eq_true in Hs; subst kind.
    + rewrite (bool_decide_eq_true_2 (is_Some (counts !! "major_crack"))) by eauto.
      reflexivity.
    + rewrite (bool_decide_eq_true_2 (is_Some (counts !! "spalling"))) by eauto.
      by rewrite orb_true_r.
  - rewrite analyse_severity.
    pose proof (lookup_le_total counts kind n Hnn Hk).
    destruct (0 <? total counts) eqn:E; [done|].
    apply Z.ltb_ge in E. lia.
Qed.

Lemma structural_kind_severity_witness :
  Dashboard.getDamageType (Some {[ "major_crack" := 1 ]}) = "Critical Damage" ∧
  severity (analyse {[ "major_crack" := 1 ]}) = "Moderate".
Proof.
  destruct (structural_kind_severity {[ "major_crack" := 1 ]} "major_crack" 1)
    as [Hlabel Hsev].
  - by apply map_Forall_singleton.
  - reflexivity.
  - by rewrite lookup_singleton_eq.
  - lia.
  - split; [exact Hlabel|]. rewrite Hsev. vm_compute. reflexivity.
Defined.

(** C2: for non-negative counts whose kinds are none of the inherited
    names, the health score is 100 minus the sum of weight times count over
    the mapping, clamped below at 0 and not above; the weight the code reads
    at such a kind is the catalog weight, which is 0 for a kind the catalog
    does not list. *)
Theorem health_score_formula (counts : gmap string Z) :
  nonNegative counts → Js.ownKinds counts →
  health_score (analyse counts) = Z.max 0 (100 - penaltySum counts) ∧
  (∀ kind, Js.ownName kind → Js.or0 (penalties !! kind) = weightOf kind) ∧
  (∀ kind, Js.ownName kind → kind ∉ mockDamages →
           Js.or0 (penalties !! kind) = 0).
Proof.
  intros Hnn _. split; [|split].
  - rewrite analyse_health_score.
    destruct (0 <? total counts) eqn:E; [done|].
    apply Z.ltb_ge in E.
    rewrite (penaltySum_no_detection counts Hnn E). reflexivity.
  - intros kind _. apply or0_penalties.
  - intros kind _ Hk. rewrite or0_penalties. unfold weightOf.
    repeat (case_bool_decide;
            [exfalso; apply Hk; subst kind; unfold mockDamages; set_solver|]).
    reflexivity.
Qed.

Lemma health_score_formula_witness :
  health_score (analyse {[ "major_crack" := 2; "crazing" := 4 ]}) = 70.
Proof.
  destruct (health_score_formula {[ "major_crack" := 2; "crazing" := 4 ]}) as [H _].
  - apply map_Forall_insert_2; [lia|]. by apply map_Forall_singleton.
  - apply (bool_decide_unpack _). vm_compute. reflexivity.
  - rewrite H. vm_compute. reflexivity.
Defined.

(** C3: for non-negative counts whose kinds are none of the inherited
    names, unknown kinds and the empty mapping included, the health score
    lies between 0 and 100. *)
Theorem health_score_bounds (counts : gmap string Z) :
  nonNegative counts → Js.ownKinds counts →
  0 ≤ health_score (analyse counts) ≤ 100.
Proof.
  intros Hnn _. rewrite analyse_health_score.
  pose proof (penaltySum_nonneg counts Hnn).
  destruct (0 <? total counts); lia.
Qed.

Lemma health_score_bounds_witness :
  0 ≤ health_score (analyse {[ "spalling" := 7; "moss" := 1 ]}) ≤ 100 ∧
  0 ≤ health_score (analyse ∅) ≤ 100.
Proof.
  split.
  - apply (health_score_bounds {[ "spalling" := 7; "moss" := 1 ]}).
    + apply map_Forall_insert_2; [lia|]. by apply map_Forall_singleton.
    + apply (bool_decide_unpack _). vm_compute. reflexivity.
  - apply (health_score_bounds ∅).
    + apply map_Forall_empty.
    + apply (bool_decide_unpack _). vm_compute. reflexivity.
Defined.

(** C4: a total of 0 gives Good with score 100; a total of 1 or 2 with no
    structural kind counted gives Moderate; a total above 2 gives
    Critical. *)
Theorem severity_by_total (counts : gmap string Z) :
  (total counts = 0 →
     severity (analyse counts) = "Good" ∧ health_score (analyse counts) = 100) ∧
  (1 ≤ total counts ≤ 2 →
     (∀ kind n, structural kind = true → counts !! kind = Some n → n ≤ 0) →
     severity (analyse counts) = "Moderate") ∧
  (2 < total counts → severity (analyse counts) = "Critical").
Proof.
  rewrite analyse_severity, analyse_health_score.
  split; [|split].
  - intros ->. split; reflexivity.
  - intros [H1 H2] _.
    destruct (0 <? total counts) eqn:E1; [|apply Z.ltb_ge in E1; lia].
    destruct (total counts <=? 2) eqn:E2; [done|apply Z.leb_gt in E2; lia].
  - intros H.
    destruct (0 <? total counts) eqn:E1; [|apply Z.ltb_ge in E1; lia].
    destruct (total counts <=? 2) eqn:E2; [apply Z.leb_le in E2; lia|done].
Qed.

Lemma severity_by_total_witness :
  severity (analyse {[ "minor_crack" := 1; "stain" := 1 ]}) = "Moderate" ∧
  severity (analyse ∅) = "Good" ∧ health_score (analyse ∅) = 100 ∧
  severity (analyse {[ "stain" := 3 ]}) = "Critical".
Proof.
  split; [|split; [|split]].
  - apply (severity_by_total {[ "minor_crack" := 1; "stain" := 1 ]}).
    + vm_compute. split; discriminate.
    + intros kind n Hs Hk. unfold structural in Hs.
      apply orb_true_iff in Hs as [Hs|Hs]; apply bool_decide_eq_true in Hs;
        subst kind; vm_compute in Hk; discriminate Hk.
  - apply (severity_by_total ∅). reflexivity.
  - apply (severity_by_total ∅). reflexivity.
  - apply (severity_by_total {[ "stain" := 3 ]}). vm_compute. reflexivity.
Defined.

End ApiClaims.

(** ** Statistics over the history *)

Section StatsFacts.
Import Dashboard Catalog.

Lemma Math_round_quotient (s n : Z) :
  0 < n → Js.Math_round (inject_Z s / inject_Z n) = roundHalfUp s n.
Proof.
  intros Hn. destruct n as [|p|p]; try lia.
  unfold Js.Math_round, roundHalfUp, Qdiv, Qinv, Qmult, Qplus, Qfloor, inject_Z.
  simpl. f_equal; lia.
Qed.

(** [roundHalfUp s n] is the integer nearest to the quotient, the tie going
    up: it lies in the half-open interval from mean - 1/2 (excluded) to
    mean + 1/2 (included). *)
Lemma roundHalfUp_nearest (s n : Z) :
  0 < n → 2 * s - n < 2 * n * roundHalfUp s n ≤ 2 * s + n.
Proof.
  intros Hn. unfold roundHalfUp.
  pose proof (Z.mul_div_le (2 * s + n) (2 * n)).
  pose proof (Z.mul_succ_div_gt (2 * s + n) (2 * n)). lia.
Qed.

Lemma div_le_cross (a b c d : Z) :
  0 < b → 0 < d → a * d ≤ c * b → a / b ≤ c / d.
Proof.
  intros Hb Hd H. apply Z.div_le_lower_bound; [lia|].
  pose proof (Z.mul_div_le a b Hb). nia.
Qed.

Lemma or0_num (z : Z) : or0 (JNum z) = z.
Proof. simpl. destruct (Z.eqb_spec z 0); congruence. Qed.

Lemma or0_falsy (v : JsVal) : falsy v = true → or0 v = 0.
Proof. destruct v; simpl; try done. by intros ->. Qed.

Lemma foldl_scoreSum (acc : Z) (history : list Inspection) :
  foldl (λ sum insp, sum + or0 (health_score insp)) acc history =
  acc + Zsum ((λ insp, or0 (health_score insp)) <$> history).
Proof.
  revert acc. induction history as [|insp history IH]; intros acc; csimpl; [lia|].
  rewrite IH. lia.
Qed.

Lemma scoreSum_Zsum (history : list Inspection) :
  scoreSum history = Zsum ((λ insp, or0 (health_score insp)) <$> history).
Proof. unfold scoreSum. rewrite foldl_scoreSum. lia. Qed.

Lemma Zsum_app (l1 l2 : list Z) : Zsum (l1 ++ l2) = Zsum l1 + Zsum l2.
Proof. induction l1; simpl; lia. Qed.

Lemma scoreSum_numbers (history : list Inspection) (scores : list Z) :
  health_score <$> history = JNum <$> scores → scoreSum history = Zsum scores.
Proof.
  rewrite scoreSum_Zsum. revert scores.
  induction history as [|insp history IH]; intros [|z scores] H; csimpl in *;
    try done.
  injection H as Hz Hl. rewrite Hz, or0_num, (IH scores Hl). reflexivity.
Qed.

(** The statistics of a non-empty history, with the average in integer
    arithmetic. *)
Lemma computeStats_cons (insp : Inspection) (history : list Inspection) :
  computeStats (Some (insp :: history)) =
  Some {| totalInspections := length (insp :: history);
          averageScore :=
            roundHalfUp (scoreSum (insp :: history)) (Z.of_nat (length (insp :: history)));
          severityCount :=
            {[ "Good" := tierCount "Good" (insp :: history);
               "Moderate" := tierCount "Moderate" (insp :: history);
               "Critical" := tierCount "Critical" (insp :: history) ]} |}.
Proof.
  unfold computeStats. rewrite Math_round_quotient; [reflexivity|].
  simpl length. lia.
Qed.

Lemma tierCount_cons (tier : string) (insp : Inspection) (history : list Inspection) :
  tierCount tier (insp :: history) =
  ((if bool_decide (severity insp = Some tier) then 1 else 0) + tierCount tier history)%nat.
Proof. unfold tierCount. simpl. by case_bool_decide. Qed.

(** The three tiers partition a history whose severities are all tiers. *)
Lemma tierCount_partition (history : list Inspection) :
  Forall (λ i, severity i ∈ [Some "Good"; Some "Moderate"; Some "Critical"]) history →
  (tierCount "Good" history + tierCount "Moderate" history + tierCount "Critical" history
   = length history)%nat.
Proof.
  induction 1 as [|insp history Hs Hl IH]; [reflexivity|].
  rewrite !tierCount_cons. simpl length.
  rewrite !elem_of_cons, elem_of_nil in Hs.
  destruct Hs as [E|[E|[E|[]]]]; rewrite E;
    repeat case_bool_decide; simplify_eq; lia.
Qed.

Lemma remaining_idempotent (inspections : list Inspection) (id : option string) :
  remaining (remaining inspections id) id = remaining inspections id.
Proof.
  unfold remaining.
  induction inspections as [|insp l IH]; simpl; [done|].
  destruct (negb (bool_decide (ident insp = id))) eqn:E; simpl.
  - rewrite E, IH. reflexivity.
  - exact IH.
Qed.

Lemma remaining_no_match (inspections : list Inspection) (id : option string) :
  id ∉ ident <$> inspections → remaining inspections id = inspections.
Proof.
  unfold remaining.
  induction inspections as [|insp l IH]; csimpl; intros Hni; [done|].
  apply not_elem_of_cons in Hni as [Hne Hni].
  rewrite bool_decide_eq_false_2 by congruence. simpl.
  by rewrite IH.
Qed.

End StatsFacts.

Section StatsClaims.
Import Dashboard Catalog Samples.

(** C5: the empty history gives the "no statistics" value [null]; a
    non-empty history of numeric scores gives a total equal to its length
    and an average equal to the mean of the scores rounded half-up, that is
    the integer [a] with mean - 1/2 < a <= mean + 1/2. *)
Theorem computeStats_average (history : list Inspection) (scores : list Z) :
  computeStats (Some []) = None ∧
  (history ≠ [] → health_score <$> history = JNum <$> scores →
   ∃ st, computeStats (Some history) = Some st ∧
         totalInspections st = length history ∧
         averageScore st = roundHalfUp (Zsum scores) (Z.of_nat (length scores)) ∧
         2 * Zsum scores - Z.of_nat (length scores)
           < 2 * Z.of_nat (length scores) * averageScore st
           ≤ 2 * Zsum scores + Z.of_nat (length scores)).
Proof.
  split; [reflexivity|]. intros Hne Hscores.
  assert (Hlen : length scores = length history).
  { apply (f_equal length) in Hscores. by rewrite !length_fmap in Hscores. }
  destruct history as [|insp history]; [done|].
  rewrite computeStats_cons. eexists. split; [reflexivity|]. simpl.
  rewrite (scoreSum_numbers _ _ Hscores), Hlen. simpl length.
  split; [reflexivity|]. split; [reflexivity|].
  apply roundHalfUp_nearest. lia.
Qed.

Lemma computeStats_average_witness :
  ∃ st, computeStats (Some [sampleInspection "a" "Good" 90;
                            sampleInspection "b" "Moderate" 70;
                            sampleInspection "c" "Critical" 50]) = Some st ∧
        totalInspections st = 3%nat ∧ averageScore st = 70.
Proof.
  destruct (computeStats_average
              [sampleInspection "a" "Good" 90;
               sampleInspection "b" "Moderate" 70;
               sampleInspection "c" "Critical" 50] [90; 70; 50])
    as [_ H].
  destruct H as (st & Hst & Htotal & Havg & _); [discriminate|reflexivity|].
  exists st. split; [exact Hst|]. split; [exact Htotal|].
  rewrite Havg. reflexivity.
Defined.

(** C6: the histogram of a history that has statistics holds the three
    tiers as keys, and no other, whatever their counts; when every record
    carries one of the three tiers the three counts add up to the total. *)
Theorem severityCount_tiers (history : list Inspection) (st : Stats) :
  computeStats (Some history) = Some st →
  dom (severityCount st) = {[ "Good"; "Moderate"; "Critical" ]} ∧
  ∃ good moderate critical,
    severityCount st !! "Good" = Some good ∧
    severityCount st !! "Moderate" = Some moderate ∧
    severityCount st !! "Critical" = Some critical ∧
    (Forall (λ i, severity i ∈ [Some "Good"; Some "Moderate"; Some "Critical"])
            history →
     (good + moderate + critical)%nat = totalInspections st).
Proof.
  intros Hst. destruct history as [|insp history]; [discriminate|].
  rewrite computeStats_cons in Hst. injection Hst as <-. simpl.
  split.
  - rewrite !dom_insert_L, dom_singleton_L. set_solver.
  - do 3 eexists.
    split; [by rewrite lookup_insert_eq|].
    split; [by rewrite lookup_insert_ne, lookup_insert_eq|].
    split; [by rewrite !lookup_insert_ne, lookup_singleton_eq|].
    intros Hall. exact (tierCount_partition (insp :: history) Hall).
Qed.

Lemma severityCount_tiers_witness :
  ∃ st, computeStats (Some [sampleInspection "a" "Good" 90;
                            sampleInspection "b" "Good" 70]) = Some st ∧
        dom (severityCount st) = {[ "Good"; "Moderate"; "Critical" ]} ∧
        ∃ good moderate critical,
          severityCount st !! "Good" = Some good ∧
          severityCount st !! "Moderate" = Some moderate ∧
          severityCount st !! "Critical" = Some critical ∧
          (good + moderate + critical)%nat = totalInspections st.
Proof.
  destruct (computeStats (Some [sampleInspection "a" "Good" 90;
                                sampleInspection "b" "Good" 70]))
    as [st|] eqn:Hst; [|discriminate Hst].
  exists st. split; [reflexivity|].
  destruct (severityCount_tiers _ st Hst)
    as (Hdom & good & moderate & critical & Hg & Hm & Hc & Hsum).
  split; [exact Hdom|]. exists good, moderate, critical.
  split; [exact Hg|]. split; [exact Hm|]. split; [exact Hc|].
  apply Hsum. repeat constructor.
Defined.

(** C7: removing by identifier is idempotent, leaves the history unchanged
    when no entry carries the identifier, and, identifiers being distinct,
    removes exactly the one entry that carries it; the handler that applies
    it to the component state is idempotent too. *)
Theorem remaining_removes_entry (inspections : list Inspection) (id : option string) :
  remaining (remaining inspections id) id = remaining inspections id ∧
  (id ∉ ident <$> inspections → remaining inspections id = inspections) ∧
  (NoDup (ident <$> inspections) → id ∈ ident <$> inspections →
   ∃ before insp after,
     inspections = before ++ insp :: after ∧ ident insp = id ∧
     remaining inspections id = before ++ after ∧
     length (remaining inspections id) = (length inspections - 1)%nat) ∧
  (∀ reply st,
     handleDeleteInspection reply id (handleDeleteInspection reply id st)
     = handleDeleteInspection reply id st).
Proof.
  split; [apply remaining_idempotent|].
  split; [apply remaining_no_match|]. split.
  - intros Hnd Hin.
    apply list_elem_of_fmap in Hin as (insp & Hid & Hin).
    apply list_elem_of_split in Hin as (before & after & ->).
    rewrite fmap_app, fmap_cons in Hnd.
    apply NoDup_app in Hnd as (_ & Hbefore & Hnd).
    apply NoDup_cons in Hnd as (Hafter & _).
    assert (Hb : id ∉ ident <$> before).
    { intros Hb. apply (Hbefore _ Hb). rewrite <- Hid. left. }
    assert (Hrem : remaining (before ++ insp :: after) id = before ++ after).
    { unfold remaining. rewrite List.filter_app. simpl.
      rewrite bool_decide_eq_true_2 by done. simpl.
      fold (remaining before id). fold (remaining after id).
      rewrite (remaining_no_match before id Hb).
      rewrite (remaining_no_match after id) by (by rewrite Hid).
      reflexivity. }
    exists before, insp, after. rewrite Hrem.
    repeat split; [done|]. rewrite !length_app. simpl. lia.
  - intros [] st; simpl; try reflexivity.
    by rewrite remaining_idempotent.
Qed.

Lemma remaining_removes_entry_witness :
  ∃ before insp after,
    [sampleInspection "a" "Good" 90; sampleInspection "b" "Moderate" 70;
     sampleInspection "c" "Critical" 50] = before ++ insp :: after ∧
    ident insp = Some "b" ∧
    remaining [sampleInspection "a" "Good" 90; sampleInspection "b" "Moderate" 70;
               sampleInspection "c" "Critical" 50] (Some "b") = before ++ after ∧
    length (remaining [sampleInspection "a" "Good" 90;
                       sampleInspection "b" "Moderate" 70;
                       sampleInspection "c" "Critical" 50] (Some "b"))
    = (3 - 1)%nat.
Proof.
  destruct (remaining_removes_entry
              [sampleInspection "a" "Good" 90; sampleInspection "b" "Moderate" 70;
               sampleInspection "c" "Critical" 50] (Some "b"))
    as (_ & _ & H & _).
  apply H.
  - apply (bool_decide_unpack _). vm_compute. reflexivity.
  - apply (bool_decide_unpack _). vm_compute. reflexivity.
Defined.

End StatsClaims.

(** ** Scores that are no numbers *)

Section ScoreJsonClaims.
Import ScoreJson Catalog.

Lemma orZero_numeric (v : Score) :
  numericOrFalsy v = true → orZero v = ONumber (counted v).
Proof.
  destruct v as [| | |[]|z|s|]; simpl; try done.
  - by destruct (z =? 0) eqn:E; simpl; [apply Z.eqb_eq in E; subst|].
  - intros Hs. apply negb_true_iff in Hs. by rewrite Hs.
Qed.

Lemma foldl_plus_numeric (scores : list Score) (a : Z) :
  Forall (λ v, numericOrFalsy v = true) scores →
  foldl (λ sum v, plus sum (orZero v)) (Num a) scores
  = Num (a + Zsum (counted <$> scores)).
Proof.
  intros Hall. revert a.
  induction Hall as [|v scores Hv _ IH]; intros a; csimpl.
  - f_equal. lia.
  - rewrite (orZero_numeric v Hv). simpl. rewrite IH. f_equal. lia.
Qed.

Lemma scoreSum_numeric (scores : list Score) :
  Forall (λ v, numericOrFalsy v = true) scores →
  scoreSum scores = Num (Zsum (counted <$> scores)).
Proof. intros Hall. unfold scoreSum. by rewrite foldl_plus_numeric. Qed.

Lemma counted_falsy (v : Score) : truthy v = false → counted v = 0.
Proof.
  destruct v as [| | |[]|z|s|]; simpl; try done.
  intros Hz. apply negb_false_iff, Z.eqb_eq in Hz. exact Hz.
Qed.

Lemma falsy_numericOrFalsy (v : Score) :
  truthy v = false → numericOrFalsy v = true.
Proof. destruct v; simpl; try done; by intros ->. Qed.

(** On the scores of [Dashboard.JsVal] the two reductions agree, and so do
    the averages. *)
Lemma scoreSum_ofJsVal (history : list Dashboard.Inspection) :
  scoreSum (ofJsVal <$> (Dashboard.health_score <$> history))
  = Num (Dashboard.scoreSum history).
Proof.
  rewrite scoreSum_numeric.
  - rewrite scoreSum_Zsum. f_equal. rewrite <- !list_fmap_compose.
    f_equal. apply list_fmap_ext. intros _ insp _. simpl.
    destruct (Dashboard.health_score insp) as [| | |z]; try reflexivity.
    symmetry. apply or0_num.
  - rewrite <- list_fmap_compose. apply Forall_fmap, Forall_forall.
    intros insp _. simpl. by destruct (Dashboard.health_score insp).
Qed.

Lemma averageScore_ofJsVal (history : list Dashboard.Inspection)
    (st : Dashboard.Stats) :
  Dashboard.computeStats (Some history) = Some st →
  averageScore (ofJsVal <$> (Dashboard.health_score <$> history))
  = Some (Rounded (Dashboard.averageScore st)).
Proof.
  intros Hst. destruct history as [|insp history]; [discriminate|].
  unfold averageScore. rewrite scoreSum_ofJsVal, !length_fmap.
  injection Hst as <-. reflexivity.
Qed.

(** C10, as stated, fails: a score that is not a number is not always
    counted as 0.  With the text "N/A" as the only score the sum is the
    string "0N/A", not the number 0. *)
Lemma non_numeric_score_not_zero :
  ¬ (∀ (before after : list Score) (v : Score),
       unusable v = true →
       scoreSum (before ++ v :: after) = scoreSum (before ++ after)).
Proof.
  intros H. specialize (H [] [] (SText "N/A") eq_refl).
  vm_compute in H. discriminate H.
Qed.

(** C10, amended: in a history whose scores are each a number or falsy, a
    record whose score is falsy (missing, null, not a number, zero, false or
    the empty text) adds nothing to the score sum and is still counted, so
    the average is the sum of the other scores over the full length; with
    that sum non-negative it is no higher than the average without the
    record. *)
Theorem falsy_score_adds_zero (before after : list Score) (v : Score) :
  truthy v = false →
  Forall (λ w, numericOrFalsy w = true) (before ++ after) →
  scoreSum (before ++ v :: after) = scoreSum (before ++ after) ∧
  scoreSum (before ++ after) = Num (Zsum (counted <$> before ++ after)) ∧
  length (before ++ v :: after) = S (length (before ++ after)) ∧
  averageScore (before ++ v :: after)
  = Some (Rounded (roundHalfUp (Zsum (counted <$> before ++ after))
                               (Z.of_nat (S (length (before ++ after)))))) ∧
  (0 ≤ Zsum (counted <$> before ++ after) →
   ∀ a, averageScore (before ++ after) = Some (Rounded a) →
        roundHalfUp (Zsum (counted <$> before ++ after))
                    (Z.of_nat (S (length (before ++ after)))) ≤ a).
Proof.
  intros Hv Hall.
  assert (Hall' : Forall (λ w, numericOrFalsy w = true) (before ++ v :: after)).
  { apply Forall_app in Hall as [Hb Ha]. apply Forall_app. split; [exact Hb|].
    constructor; [by apply falsy_numericOrFalsy|exact Ha]. }
  assert (Hsum : Zsum (counted <$> before ++ v :: after)
                 = Zsum (counted <$> before ++ after)).
  { rewrite !fmap_app, fmap_cons, !Zsum_app. simpl.
    rewrite (counted_falsy v Hv). lia. }
  assert (Hlen : length (before ++ v :: after) = S (length (before ++ after))).
  { rewrite !length_app. simpl. lia. }
  split; [by rewrite !scoreSum_numeric, Hsum|].
  split; [by apply scoreSum_numeric|].
  split; [exact Hlen|]. split.
  - unfold averageScore. rewrite (scoreSum_numeric _ Hall'), Hsum, Hlen.
    destruct (before ++ v :: after) as [|w l]; [discriminate Hlen|].
    rewrite Math_round_quotient by lia. reflexivity.
  - intros Hpos a Ha. unfold averageScore in Ha.
    rewrite (scoreSum_numeric _ Hall) in Ha.
    destruct (before ++ after) as [|w l] eqn:Hl; [discriminate Ha|].
    rewrite <- Hl in *. 
    rewrite Math_round_quotient in Ha by (rewrite Hl; simpl length; lia).
    injection Ha as <-.
    assert (0 < Z.of_nat (length (before ++ after)))
      by (rewrite Hl; simpl length; lia).
    rewrite Nat2Z.inj_succ.
    unfold roundHalfUp. apply div_le_cross; nia.
Qed.

Lemma falsy_score_adds_zero_witness :
  averageScore ([SNumber 90] ++ SUndefined :: [SNumber 50]) = Some (Rounded 47) ∧
  scoreSum ([SNumber 90] ++ SUndefined :: [SNumber 50])
  = scoreSum ([SNumber 90] ++ [SNumber 50]).
Proof.
  destruct (falsy_score_adds_zero [SNumber 90] [SNumber 50] SUndefined)
    as (Hsum & _ & _ & Havg & _).
  - reflexivity.
  - repeat constructor.
  - split; [|exact Hsum]. rewrite Havg. reflexivity.
Defined.

End ScoreJsonClaims.

(** ** Exporting the report *)

Section ExportClaims.
Import Result PdfGenerator.

Variable Image : Type.
Variable readImage : string → option Image.
Variable fileNameFor : ReportOptions → string.

Lemma embedImage_unavailable (opts : ReportOptions) :
  (imageDataUrl opts = None ∨
   ∃ ref, imageDataUrl opts = Some ref ∧ readImage ref = None) →
  ∃ message, embedImage readImage opts = (None, Some message).
Proof.
  unfold embedImage. intros [->|(ref & -> & ->)]; eauto.
Qed.

(** C9: the export completes for every analysis and every set of options,
    so the download handler announces the file and never the failure; when
    the image is absent or cannot be read, the report is text-only (no
    embedded image, the text fields intact) and carries a warning. *)
Theorem export_degrades_without_image (analysis : Api.Analysis) (opts : ReportOptions) :
  (∃ name,
     generateInspectionReport readImage fileNameFor analysis opts = Js.Resolved name ∧
     handleDownloadPDF (generateInspectionReport readImage fileNameFor) analysis opts
     = ("PDF report downloaded: " ++ name)%string) ∧
  ((imageDataUrl opts = None ∨
    ∃ ref, imageDataUrl opts = Some ref ∧ readImage ref = None) →
   let report := export readImage fileNameFor analysis opts in
   embedded (document report) = None ∧
   is_Some (warning report) ∧
   severityLabel (document report) = Api.severity analysis ∧
   scoreNumber (document report) = Api.health_score analysis ∧
   precautionList (document report) = Api.precautions analysis).
Proof.
  split.
  - eexists. split; reflexivity.
  - intros Himg. destruct (embedImage_unavailable opts Himg) as [message Hm].
    unfold export. rewrite Hm. simpl. eauto 10.
Qed.

End ExportClaims.

Lemma export_degrades_without_image_witness :
  let opts := {| Result.inspectionId := Some "insp-1";
                 Result.filename := Some "wall.jpg";
                 Result.imageDataUrl := Some "data:image/png;base64,AAAA" |} in
  let report :=
    PdfGenerator.export (Image := string) (λ _, None) (λ _, "report.pdf")
                        (Api.analyse {[ "stain" := 1 ]}) opts in
  PdfGenerator.embedded (PdfGenerator.document report) = None ∧
  is_Some (PdfGenerator.warning report).
Proof.
  intros opts report.
  destruct (export_degrades_without_image string (λ _, None) (λ _, "report.pdf")
              (Api.analyse {[ "stain" := 1 ]}) opts) as [_ H].
  destruct H as (Hembedded & Hwarning & _).
  - right. exists "data:image/png;base64,AAAA". split; reflexivity.
  - split; [exact Hembedded|exact Hwarning].
Defined.

(** * Further properties of the code *)

(** ** The demo analysis: one more detection, and the range of the demo *)

Section ApiExtras.
Import Api Catalog.

Lemma analyse_detected_damages (detected : gmap string Z) :
  detected_damages (analyse detected) = detected.
Proof. unfold analyse. by destruct (0 <? count detected). Qed.

Lemma penalise_insert_fresh (detected : gmap string Z) (damage : string) (n score : Z) :
  detected !! damage = None →
  penalise (<[damage := n]> detected) score
  = penalise detected score - Js.or0 (penalties !! damage) * n.
Proof.
  intros Hfresh. unfold penalise.
  rewrite map_fold_insert_L; [reflexivity| |exact Hfresh].
  intros. lia.
Qed.

Lemma penaltySum_insert_fresh (detected : gmap string Z) (damage : string) (n : Z) :
  detected !! damage = None →
  penaltySum (<[damage := n]> detected) = penaltySum detected + weightOf damage * n.
Proof.
  intros Hfresh.
  pose proof (penalise_insert_fresh detected damage n 0 Hfresh) as H.
  rewrite !penalise_penaltySum, or0_penalties in H. lia.
Qed.

Lemma penaltySum_bump (detected : gmap string Z) (damage : string) :
  penaltySum (bump detected damage) = penaltySum detected + weightOf damage.
Proof.
  unfold bump. destruct (detected !! damage) as [n|] eqn:Hd.
  - rewrite <- (insert_delete_id detected damage n Hd) at 2.
    rewrite <- insert_delete_eq.
    rewrite !penaltySum_insert_fresh by apply lookup_delete_eq.
    simpl. destruct (Z.eqb_spec n 0); subst; lia.
  - rewrite penaltySum_insert_fresh by exact Hd. simpl. lia.
Qed.

Lemma total_bump (detected : gmap string Z) (damage : string) :
  total (bump detected damage) = total detected + 1.
Proof. rewrite <- !count_total. apply count_bump. Qed.

Lemma weightOf_le_20 (kind : string) : weightOf kind ≤ 20.
Proof. unfold weightOf. repeat case_bool_decide; lia. Qed.

(** X3: one more detection of a kind that is no inherited name, in a
    mapping of non-negative counts whose kinds are none either, never raises
    the health score, lowers it by at most 20, never gives Good, and keeps a
    Critical severity Critical. *)
Theorem bump_worsens (detected : gmap string Z) (damage : string) :
  nonNegative detected → Js.ownKinds detected → Js.ownName damage →
  health_score (analyse (bump detected damage)) ≤ health_score (analyse detected) ∧
  health_score (analyse detected) - 20 ≤ health_score (analyse (bump detected damage)) ∧
  severity (analyse (bump detected damage)) ≠ "Good" ∧
  (severity (analyse detected) = "Critical" →
   severity (analyse (bump detected damage)) = "Critical").
Proof.
  intros Hnn _ _.
  pose proof (total_nonneg detected Hnn) as Ht.
  pose proof (penaltySum_nonneg detected Hnn) as Hp.
  pose proof (weightOf_nonneg damage) as Hw0.
  pose proof (weightOf_le_20 damage) as Hw1.
  rewrite !analyse_health_score, !analyse_severity, total_bump, penaltySum_bump.
  destruct (Z.ltb_spec 0 (total detected + 1)); [|lia].
  destruct (Z.ltb_spec 0 (total detected)).
  - split; [lia|]. split; [lia|]. split.
    + by destruct (_ <=? 2).
    + destruct (Z.leb_spec (total detected) 2); [discriminate|].
      intros _. destruct (Z.leb_spec (total detected + 1) 2); [lia|done].
  - assert (Hz : penaltySum detected = 0)
      by (apply penaltySum_no_detection; [exact Hnn|lia]).
    rewrite Hz. split; [lia|]. split; [lia|]. split.
    + by destruct (_ <=? 2).
    + discriminate.
Qed.

Lemma bump_worsens_witness :
  health_score (analyse (bump {[ "algae" := 1 ]} "spalling")) ≤ 95.
Proof.
  destruct (bump_worsens {[ "algae" := 1 ]} "spalling") as [H _].
  - by apply map_Forall_singleton.
  - apply (bool_decide_unpack _). vm_compute. reflexivity.
  - apply (bool_decide_unpack _). vm_compute. reflexivity.
  - etransitivity; [exact H|]. vm_compute. discriminate.
Defined.

Lemma penaltySum_foldl_bump (picks : list string) (detected : gmap string Z) :
  penaltySum (foldl bump detected picks)
  = penaltySum detected + Zsum (weightOf <$> picks).
Proof.
  revert detected. induction picks as [|damage picks IH]; intros detected; csimpl.
  - lia.
  - rewrite IH, penaltySum_bump. lia.
Qed.

Lemma Zsum_weights_bounds (picks : list string) :
  0 ≤ Zsum (weightOf <$> picks) ≤ 20 * Z.of_nat (length picks).
Proof.
  induction picks as [|damage picks IH]; csimpl; [lia|].
  pose proof (weightOf_nonneg damage). pose proof (weightOf_le_20 damage). lia.
Qed.

Lemma dom_foldl_bump (picks : list string) (detected : gmap string Z) :
  dom (foldl bump detected picks) = dom detected ∪ list_to_set picks.
Proof.
  revert detected. induction picks as [|damage picks IH]; intros detected; csimpl.
  - by rewrite (right_id_L ∅ (∪)).
  - rewrite IH. unfold bump.
    by rewrite dom_insert_L, (comm_L (∪) {[damage]}), <- (assoc_L (∪)).
Qed.

Lemma positive_foldl_bump (picks : list string) (detected : gmap string Z) :
  map_Forall (λ _ n, 1 ≤ n) detected →
  map_Forall (λ _ n, 1 ≤ n) (foldl bump detected picks).
Proof.
  revert detected. induction picks as [|damage picks IH]; intros detected Hpos;
    csimpl; [exact Hpos|].
  apply IH. unfold bump. apply map_Forall_insert_2; [|exact Hpos].
  destruct (detected !! damage) as [n|] eqn:Hd; simpl; [|lia].
  specialize (Hpos damage n Hd). simpl in Hpos.
  destruct (Z.eqb_spec n 0); lia.
Qed.

Lemma draw_in_range (random_floor : nat → nat → nat) (i : nat) :
  (random_floor (S i) 7 < 7)%nat → draw random_floor i ∈ mockDamages.
Proof.
  intros Hlt. unfold draw.
  destruct (mockDamages !! random_floor (S i) 7%nat) as [damage|] eqn:Hd.
  - simpl. by eapply list_elem_of_lookup_2.
  - apply lookup_ge_None in Hd. simpl in Hd. lia.
Qed.

(** X2: the demo, with every random index in its range: between one and three
    detections, each of a listed kind and counted at least once; a score of
    100 minus the weights of the kinds drawn, never below 40; Critical
    exactly when three damages were drawn, Moderate otherwise. *)
Theorem demo_analysis_range (random_floor : nat → nat → nat) :
  (∀ i k, (0 < k)%nat → (random_floor i k < k)%nat) →
  ∃ a, mockAnalyzeImage random_floor = Js.Resolved a ∧
       (∀ kind n, detected_damages a !! kind = Some n →
                  kind ∈ mockDamages ∧ 1 ≤ n ≤ 3) ∧
       1 ≤ total (detected_damages a) ≤ 3 ∧
       health_score a
         = 100 - Zsum (weightOf <$> (draw random_floor
                                       <$> seq 0 (numDamages random_floor))) ∧
       40 ≤ health_score a ≤ 100 ∧
       severity a = (if bool_decide (random_floor 0%nat 3%nat = 2%nat)
                     then "Critical" else "Moderate").
Proof.
  intros Hrange.
  pose proof (Hrange 0%nat 3%nat ltac:(lia)) as Hnum.
  set (picks := draw random_floor <$> seq 0 (numDamages random_floor)).
  assert (Hlen : length picks = numDamages random_floor)
    by (subst picks; by rewrite length_fmap, length_seq).
  assert (Htotal : total (detect random_floor) = Z.of_nat (numDamages random_floor)).
  { rewrite <- count_total. unfold detect. fold picks.
    rewrite count_foldl_bump, Hlen. unfold count. rewrite map_fold_empty. lia. }
  assert (Hpen : penaltySum (detect random_floor) = Zsum (weightOf <$> picks)).
  { unfold detect. fold picks. rewrite penaltySum_foldl_bump.
    unfold penaltySum at 1. rewrite map_to_list_empty. simpl. lia. }
  assert (Hpos : map_Forall (λ _ n, 1 ≤ n) (detect random_floor)).
  { apply positive_foldl_bump, map_Forall_empty. }
  assert (Hnn : nonNegative (detect random_floor)).
  { intros kind n Hk. specialize (Hpos kind n Hk). simpl in *. lia. }
  pose proof (Zsum_weights_bounds picks) as Hw. rewrite Hlen in Hw.
  unfold numDamages in *.
  exists (analyse (detect random_floor)). split; [reflexivity|].
  split; [|split; [|split; [|split]]].
  - intros kind n Hk.
    rewrite analyse_detected_damages in Hk.
    split; [|split; [exact (Hpos kind n Hk)|]].
    + assert (Hdom : kind ∈ dom (detect random_floor)) by (by apply elem_of_dom).
      unfold detect in Hdom. rewrite dom_foldl_bump in Hdom. fold picks in Hdom.
      apply elem_of_union in Hdom as [Hdom|Hdom];
        [by rewrite dom_empty_L in Hdom|].
      apply elem_of_list_to_set in Hdom. subst picks.
      apply list_elem_of_fmap in Hdom as (i & -> & _).
      apply draw_in_range, Hrange. lia.
    + pose proof (lookup_le_total _ kind n Hnn Hk). lia.
  - rewrite analyse_detected_damages. lia.
  - rewrite analyse_health_score, Htotal, Hpen.
    destruct (Z.ltb_spec 0 (Z.of_nat (random_floor 0 3 + 1)%nat)); lia.
  - rewrite analyse_health_score, Htotal, Hpen.
    destruct (Z.ltb_spec 0 (Z.of_nat (random_floor 0 3 + 1)%nat)); lia.
  - rewrite analyse_severity, Htotal.
    destruct (Z.ltb_spec 0 (Z.of_nat (random_floor 0 3 + 1)%nat)); [|lia].
    case_bool_decide as Hthree.
    + rewrite Hthree. reflexivity.
    + destruct (Z.leb_spec (Z.of_nat (random_floor 0 3 + 1)%nat) 2); [done|lia].
Qed.

Lemma demo_analysis_range_witness :
  ∃ a, mockAnalyzeImage (λ i k, (i `mod` k)%nat) = Js.Resolved a ∧
       40 ≤ health_score a ≤ 100 ∧ severity a = "Moderate".
Proof.
  destruct (demo_analysis_range (λ i k, (i `mod` k)%nat))
    as (a & Ha & _ & _ & _ & Hscore & Hsev).
  - intros i k Hk. apply Nat.mod_upper_bound. lia.
  - exists a. split; [exact Ha|]. split; [exact Hscore|]. exact Hsev.
Defined.




End ApiExtras.

(** ** The history: statistics, deletion, rows *)

Section HistoryExtras.
Import Dashboard DashboardPage Catalog.





Lemma scoreSum_bounds (lo hi : Z) (history : list Inspection) :
  Forall (λ i, lo ≤ or0 (health_score i) ≤ hi) history →
  Z.of_nat (length history) * lo ≤ scoreSum history
  ≤ Z.of_nat (length history) * hi.
Proof.
  rewrite scoreSum_Zsum.
  induction 1 as [|i l Hi Hl IH]; [simpl; lia|].
  rewrite fmap_cons. simpl Zsum. simpl length. lia.
Qed.

(** X5: the average lies between any two integers that bound every score as
    the statistics count it: scores within 0 and 100 give an average within
    0 and 100. *)
Theorem averageScore_bounds (lo hi : Z) (history : list Inspection) (st : Stats) :
  Forall (λ i, lo ≤ or0 (health_score i) ≤ hi) history →
  computeStats (Some history) = Some st →
  lo ≤ averageScore st ≤ hi.
Proof.
  intros Hall Hst. destruct history as [|insp history]; [discriminate|].
  pose proof (scoreSum_bounds lo hi _ Hall) as Hsum.
  rewrite computeStats_cons in Hst. injection Hst as <-. simpl averageScore.
  change (S (length history)) with (length (insp :: history)).
  set (n := Z.of_nat (length (insp :: history))) in *.
  assert (0 < n) by (subst n; simpl length; lia).
  unfold roundHalfUp. split.
  - apply Z.div_le_lower_bound; lia.
  - apply Z.lt_succ_r, Z.div_lt_upper_bound; lia.
Qed.

Lemma averageScore_bounds_witness :
  ∃ st, computeStats (Some [Samples.sampleInspection "a" "Good" 90;
                            Samples.unscoredInspection "b" "Moderate"]) = Some st ∧
        0 ≤ averageScore st ≤ 100.
Proof.
  destruct (computeStats (Some [Samples.sampleInspection "a" "Good" 90;
                                Samples.unscoredInspection "b" "Moderate"]))
    as [st|] eqn:Hst; [|discriminate Hst].
  exists st. split; [reflexivity|].
  apply (averageScore_bounds 0 100
           [Samples.sampleInspection "a" "Good" 90;
            Samples.unscoredInspection "b" "Moderate"] st); [|exact Hst].
  repeat constructor; simpl; lia.
Defined.

Lemma tierCount_tiered (history : list Inspection) :
  (tierCount "Good" history + tierCount "Moderate" history
   + tierCount "Critical" history
   = length (List.filter tiered history))%nat.
Proof.
  induction history as [|insp history IH]; [reflexivity|].
  rewrite !tierCount_cons. simpl. unfold tiered at 1.
  destruct (severity insp) as [s|]; repeat case_bool_decide; simplify_eq;
    simpl; lia.
Qed.

Lemma tiered_partition (history : list Inspection) :
  (length (List.filter tiered history)
   + length (List.filter (λ i, negb (tiered i)) history)
   = length history)%nat.
Proof.
  induction history as [|i l IH]; simpl; [reflexivity|].
  destruct (tiered i); simpl; lia.
Qed.

(** X6: the three counts of the histogram add up to the number of records whose
    severity is one of the three tiers: a record with a missing or any other
    severity is in the total and in no tier. *)
Theorem severityCount_sum (history : list Inspection) (st : Stats) :
  computeStats (Some history) = Some st →
  ∃ good moderate critical,
    severityCount st !! "Good" = Some good ∧
    severityCount st !! "Moderate" = Some moderate ∧
    severityCount st !! "Critical" = Some critical ∧
    (good + moderate + critical
     + length (List.filter (λ i, negb (tiered i)) history)
     = totalInspections st)%nat.
Proof.
  intros Hst. destruct history as [|insp history]; [discriminate|].
  rewrite computeStats_cons in Hst. injection Hst as <-.
  cbn [severityCount totalInspections].
  do 3 eexists.
  split; [by rewrite lookup_insert_eq|].
  split; [by rewrite lookup_insert_ne, lookup_insert_eq|].
  split; [by rewrite !lookup_insert_ne, lookup_singleton_eq|].
  rewrite (tierCount_tiered (insp :: history)).
  apply tiered_partition.
Qed.

Lemma severityCount_sum_witness :
  ∃ st, computeStats (Some [Samples.sampleInspection "a" "Good" 90;
                            Samples.sampleInspection "b" "good" 70]) = Some st ∧
        severityCount st !! "Good" = Some 1%nat ∧
        totalInspections st = 2%nat.
Proof.
  destruct (computeStats (Some [Samples.sampleInspection "a" "Good" 90;
                                Samples.sampleInspection "b" "good" 70]))
    as [st|] eqn:Hst; [|discriminate Hst].
  exists st. split; [reflexivity|].
  destruct (severityCount_sum _ st Hst) as (g & m & c & Hg & _ & _ & _).
  injection Hst as <-. split; [|reflexivity].
  simpl. by rewrite lookup_insert_eq.
Defined.

Lemma remaining_elem (inspections : list Inspection) (id : option string)
    (insp : Inspection) :
  insp ∈ remaining inspections id ↔ insp ∈ inspections ∧ ident insp ≠ id.
Proof.
  unfold remaining. rewrite !list_elem_of_In, filter_In.
  rewrite negb_true_iff, bool_decide_eq_false. reflexivity.
Qed.

Lemma remaining_sublist (inspections : list Inspection) (id : option string) :
  sublist (remaining inspections id) inspections.
Proof.
  unfold remaining. induction inspections as [|insp l IH]; simpl; [constructor|].
  destruct (negb _); by constructor.
Qed.

(** X7: after a deletion the history holds exactly the records with another
    identifier, in their former order: none with the deleted identifier is
    left, and none of the others is lost. *)
Theorem remaining_keeps_others (inspections : list Inspection) (id : option string) :
  (∀ insp, insp ∈ remaining inspections id ↔
           insp ∈ inspections ∧ ident insp ≠ id) ∧
  sublist (remaining inspections id) inspections ∧
  id ∉ ident <$> remaining inspections id.
Proof.
  split; [intros insp; apply remaining_elem|].
  split; [apply remaining_sublist|].
  intros Hin. apply list_elem_of_fmap in Hin as (insp & Hid & Hin).
  apply remaining_elem in Hin as [_ Hne]. congruence.
Qed.

Lemma handleDeleteInspectionOf_current (reply : DeleteReply) (id : option string)
    (st : State) :
  handleDeleteInspection reply id st
  = handleDeleteInspectionOf (inspections st) reply id st.
Proof. reflexivity. Qed.

(** X8: when two deletions are started from the same render, so that both
    handlers hold the same captured list, and both are confirmed, the later
    reply overwrites the earlier: the history ends as the captured list
    without the second record only, a first record with another identifier
    is back in it, and the statistics are those of that list.  Deletions
    that do not overlap, each started from the render that shows the state
    before it, remove both. *)
Theorem overlapping_deletions (captured : list Inspection) (a b : option string)
    (st : State) :
  let st' := handleDeleteInspectionOf captured Ok b
               (handleDeleteInspectionOf captured Ok a st) in
  inspections st' = remaining captured b ∧
  stats st' = computeStats (Some (inspections st')) ∧
  (a ≠ b → ∀ insp, insp ∈ captured → ident insp = a → insp ∈ inspections st') ∧
  inspections (handleDeleteInspection Ok b (handleDeleteInspection Ok a st))
  = remaining (remaining (inspections st) a) b.
Proof.
  simpl. split; [reflexivity|]. split; [reflexivity|]. split; [|reflexivity].
  intros Hab insp Hin Hid. apply remaining_elem. split; [exact Hin|congruence].
Qed.

Lemma overlapping_deletions_witness :
  Samples.sampleInspection "a" "Good" 90
  ∈ inspections
      (handleDeleteInspectionOf
         [Samples.sampleInspection "a" "Good" 90;
          Samples.sampleInspection "b" "Moderate" 70] Ok (Some "b")
         (handleDeleteInspectionOf
            [Samples.sampleInspection "a" "Good" 90;
             Samples.sampleInspection "b" "Moderate" 70] Ok (Some "a")
            initialState)).
Proof.
  destruct (overlapping_deletions
              [Samples.sampleInspection "a" "Good" 90;
               Samples.sampleInspection "b" "Moderate" 70]
              (Some "a") (Some "b") initialState) as (_ & _ & Hback & _).
  apply Hback.
  - discriminate.
  - apply list_elem_of_here.
  - reflexivity.
Defined.

Lemma handle_synced (st : State) (e : Event) :
  stats st = computeStats (Some (inspections st)) →
  stats (handle st e) = computeStats (Some (inspections (handle st e))).
Proof.
  intros Hst. destruct e as [[]|[] id]; simpl; done.
Qed.

Lemma computeStats_is_Some (history : list Inspection) :
  is_Some (computeStats (Some history)) ↔ history ≠ [].
Proof.
  destruct history as [|insp history].
  - split; [intros [st Hst]; discriminate|done].
  - rewrite computeStats_cons. split; [done|eauto].
Qed.

(** X9: whatever sequence of loads and deletions the page has gone through, and
    however each request ended, the statistics are those of the history it
    holds: they are absent exactly when the history is empty, and otherwise
    count every record of it. *)
Theorem run_stats_synced (events : list Event) :
  stats (run events) = computeStats (Some (inspections (run events))) ∧
  (is_Some (stats (run events)) ↔ inspections (run events) ≠ []) ∧
  (∀ st, stats (run events) = Some st →
         totalInspections st = length (inspections (run events))).
Proof.
  assert (Hsync : stats (run events)
                  = computeStats (Some (inspections (run events)))).
  { unfold run. induction events as [|e events IH] using rev_ind; [reflexivity|].
    rewrite foldl_app. simpl. by apply handle_synced. }
  split; [exact Hsync|]. rewrite Hsync. split; [apply computeStats_is_Some|].
  intros st Hst. destruct (inspections (run events)) as [|insp l]; [discriminate|].
  rewrite computeStats_cons in Hst. by injection Hst as <-.
Qed.

Lemma remaining_length_distinct (inspections : list Inspection) (id : option string) :
  NoDup (ident <$> inspections) → id ∈ ident <$> inspections →
  S (length (remaining inspections id)) = length inspections.
Proof.
  induction inspections as [|insp l IH]; csimpl; intros Hnd Hin.
  - by apply elem_of_nil in Hin.
  - apply NoDup_cons in Hnd as [Hfresh Hnd].
    unfold remaining. simpl. case_bool_decide as Hid; simpl.
    + fold (remaining l id). rewrite remaining_no_match; [done|congruence].
    + fold (remaining l id). f_equal. apply IH; [done|].
      apply elem_of_cons in Hin as [Hin|Hin]; [congruence|done].
Qed.

(** X10: with distinct identifiers and more than five records, the list of
    recent inspections still shows five rows after one of the records is
    deleted. *)
Theorem recent_refills (inspections : list Inspection) (id : option string) :
  NoDup (ident <$> inspections) → id ∈ ident <$> inspections →
  (5 < length inspections)%nat →
  length (recent (remaining inspections id)) = 5%nat.
Proof.
  intros Hnd Hin Hlen.
  pose proof (remaining_length_distinct inspections id Hnd Hin).
  unfold recent. rewrite length_take. lia.
Qed.

Lemma recent_refills_witness :
  length (recent (remaining MoreSamples.sixInspections (Some "b"))) = 5%nat.
Proof.
  apply (recent_refills MoreSamples.sixInspections (Some "b")).
  - apply (bool_decide_unpack _). vm_compute. reflexivity.
  - apply (bool_decide_unpack _). vm_compute. reflexivity.
  - simpl. lia.
Defined.

Lemma keys_length {A} (o : gmap string A) : length (Js.keys o) = size o.
Proof. unfold Js.keys. by rewrite length_fmap, length_map_to_list. Qed.

Lemma keys_includes_dom {A} (o : gmap string A) (k : string) :
  Js.includes (Js.keys o) k = bool_decide (k ∈ dom o).
Proof.
  rewrite keys_includes. apply bool_decide_ext. by rewrite elem_of_dom.
Qed.

Lemma getDamageType_dom (damages : gmap string Z) :
  getDamageType (Some damages) =
    if bool_decide (dom damages = ∅) then "No Damage"
    else if bool_decide ("major_crack" ∈ dom damages ∨ "spalling" ∈ dom damages)
    then "Critical Damage"
    else if bool_decide ("minor_crack" ∈ dom damages ∨ "peeling" ∈ dom damages)
    then "Surface Damage"
    else "Minor Damage".
Proof.
  unfold getDamageType. rewrite keys_length, !keys_includes_dom.
  destruct (Nat.eqb_spec (size damages) 0) as [Hz|Hnz].
  - apply map_size_empty_iff in Hz. subst.
    by rewrite (bool_decide_eq_true_2 (dom (∅ : gmap string Z) = ∅)) by apply dom_empty_L.
  - rewrite (bool_decide_eq_false_2 (dom damages = ∅)).
    + by rewrite !bool_decide_or.
    + intros Hd. apply Hnz. apply dom_empty_iff_L in Hd. by subst.
Qed.

(** X11: the damage label looks at which kinds are keys of the dictionary and
    never at their counts: two dictionaries with the same keys get the same
    label, and the label is "Critical Damage" exactly when major_crack or
    spalling is a key, even with a count of zero. *)
Theorem getDamageType_keys_only (damages damages' : gmap string Z) :
  (dom damages = dom damages' →
   getDamageType (Some damages) = getDamageType (Some damages')) ∧
  (getDamageType (Some damages) = "Critical Damage" ↔
   "major_crack" ∈ dom damages ∨ "spalling" ∈ dom damages) ∧
  (getDamageType (Some damages) = "No Damage" ↔ damages = ∅).
Proof.
  split; [|split].
  - intros Hdom. by rewrite !getDamageType_dom, Hdom.
  - rewrite getDamageType_dom.
    destruct (decide (dom damages = ∅)) as [Hempty|Hne].
    + rewrite (bool_decide_eq_true_2 _ Hempty). split; [discriminate|].
      rewrite Hempty. intros [H|H]; by apply not_elem_of_empty in H.
    + rewrite (bool_decide_eq_false_2 _ Hne).
      case_bool_decide as Hc; [done|]. split; [|done].
      case_bool_decide; discriminate.
  - rewrite getDamageType_dom, <- dom_empty_iff_L.
    destruct (decide (dom damages = ∅)) as [Hempty|Hne].
    + by rewrite (bool_decide_eq_true_2 _ Hempty).
    + rewrite (bool_decide_eq_false_2 _ Hne). split; [|done].
      repeat case_bool_decide; discriminate.
Qed.

Lemma getDamageType_keys_only_witness :
  getDamageType (Some {[ "spalling" := 0 ]}) = getDamageType (Some {[ "spalling" := 4 ]}).
Proof.
  destruct (getDamageType_keys_only {[ "spalling" := 0 ]} {[ "spalling" := 4 ]})
    as [Hsame _].
  apply Hsame. rewrite !dom_singleton_L. reflexivity.
Defined.

(** X12: for every record the dashboard labels "No Damage" exactly when the
    result page shows its "No Damages Detected!" panel: both look for a
    missing or empty dictionary. *)
Theorem no_damage_consistent (detected_damages : option (gmap string Z)) :
  getDamageType detected_damages = "No Damage" ↔
  ResultPage.noDamagesShown detected_damages = true.
Proof.
  unfold ResultPage.noDamagesShown.
  destruct detected_damages as [damages|].
  - change (default ∅ (Some damages)) with damages. rewrite keys_length.
    rewrite getDamageType_dom, Nat.eqb_eq, map_size_empty_iff, <- dom_empty_iff_L.
    destruct (decide (dom damages = ∅)) as [Hempty|Hne].
    + by rewrite (bool_decide_eq_true_2 _ Hempty).
    + rewrite (bool_decide_eq_false_2 _ Hne). split; [|done].
      repeat case_bool_decide; discriminate.
  - split; [intros _|done]. vm_compute. reflexivity.
Qed.

(** A row shows the score that the statistics count exactly when the score
    is a number other than zero; for a missing, null, not-a-number or zero
    score the row shows 75 while the statistics count 0. *)
Theorem shownScore_counted (inspection : Inspection) :
  (falsy (health_score inspection) = false →
   shownScore inspection = or0 (health_score inspection)) ∧
  (falsy (health_score inspection) = true →
   shownScore inspection = 75 ∧ or0 (health_score inspection) = 0).
Proof.
  unfold shownScore. destruct (health_score inspection) as [| | |z]; simpl;
    try (split; [discriminate|done]).
  destruct (z =? 0); split; done.
Qed.

(** X13: a history in which no record has a usable score shows 75 on every row
    and an average of 0. *)
Theorem unscored_history (history : list Inspection) :
  history ≠ [] → Forall (λ i, falsy (health_score i) = true) history →
  ∃ st, computeStats (Some history) = Some st ∧ averageScore st = 0 ∧
        Forall (λ i, shownScore i = 75) (recent history).
Proof.
  intros Hne Hall. destruct history as [|insp history]; [done|].
  rewrite computeStats_cons. eexists. split; [reflexivity|]. split.
  - simpl averageScore.
    assert (Hsum : scoreSum (insp :: history) = 0).
    { pose proof (scoreSum_bounds 0 0 (insp :: history)) as Hb.
      assert (0 ≤ scoreSum (insp :: history) ≤ 0); [|lia].
      rewrite <- (Z.mul_0_r (Z.of_nat (length (insp :: history)))). apply Hb.
      eapply Forall_impl; [exact Hall|]. intros i Hi. simpl.
      rewrite (or0_falsy _ Hi). lia. }
    rewrite Hsum. unfold roundHalfUp. apply Z.div_small. simpl length. lia.
  - apply Forall_take. eapply Forall_impl; [exact Hall|]. intros i Hi. simpl.
    by apply shownScore_counted.
Qed.

Lemma unscored_history_witness :
  ∃ st, computeStats (Some [Samples.unscoredInspection "a" "Good";
                            Samples.sampleInspection "b" "Good" 0]) = Some st ∧
        averageScore st = 0.
Proof.
  destruct (unscored_history [Samples.unscoredInspection "a" "Good";
                              Samples.sampleInspection "b" "Good" 0])
    as (st & Hst & Havg & _).
  - discriminate.
  - repeat constructor.
  - exists st. split; [exact Hst|exact Havg].
Defined.

End HistoryExtras.

(** ** The upload zone *)

Section UploadExtras.
Import UploadZone.

(** X14: a file is read exactly when its type is one of the four listed and its
    size is at most 10 MiB, a file of exactly that size included; a file of
    another type gets the type alert whatever its size; and of several
    files dropped only the first is looked at. *)
Theorem processFile_reads (file : File) :
  (processFile file = Read file ↔
   type file ∈ validTypes ∧ size file ≤ 10485760) ∧
  (type file ∉ validTypes →
   processFile file = Alert "Please upload a valid image (JPG, PNG, WebP)") ∧
  (∀ others, handleDrop (Some (file :: others)) = Some (processFile file)) ∧
  (∀ file', processFile file = Read file' → file' = file).
Proof.
  unfold processFile, Js.includes.
  split; [|split; [|split]].
  - case_bool_decide as Htype; simpl.
    + destruct (Z.ltb_spec (10 * 1024 * 1024) (size file)).
      * split; [discriminate|lia].
      * split; [intros _; split; [done|lia]|done].
    + split; [discriminate|tauto].
  - intros Htype. by rewrite bool_decide_eq_false_2.
  - reflexivity.
  - intros file'. case_bool_decide; simpl; [|discriminate].
    destruct (_ <? _); [discriminate|]. by intros [= ->].
Qed.

Lemma processFile_reads_witness :
  processFile {| type := "image/png"; size := 10485760 |}
  = Read {| type := "image/png"; size := 10485760 |}.
Proof.
  apply (processFile_reads {| type := "image/png"; size := 10485760 |}).
  split; [|simpl; lia].
  apply (bool_decide_unpack _). vm_compute. reflexivity.
Defined.

End UploadExtras.

(** ** Routes and the stored session *)

Section AppExtras.
Import App.

(** X15: whoever the user, every route settles on a page after at most one
    redirect; the dashboard and the result page are shown only to a signed-in
    user, and the landing, login and signup pages only without one. *)
Theorem routes_settle {User} (user : option User) (r : Route) :
  ∃ page, settle 1 user r = Some page ∧
          (page = Dashboard ∨ page = Result ↔ is_Some user) ∧
          (element user r = Render page ∨
           ∃ to, element user r = Navigate to ∧ element user to = Render page).
Proof.
  destruct user as [u|], r; simpl; eexists; (split; [reflexivity|]);
    (split; [split; [intros [?|?]; by eauto | intros Hu]|]);
    try (by left); try (by right; eauto);
    try (by destruct Hu); eauto.
Qed.

Section SessionFacts.
Context {User : Type}.
Variable stringify : User → string.
Variable parse : string → Js.Outcome (option User) string.
Hypothesis parse_stringify : ∀ u, parse (stringify u) = Js.Resolved (Some u).
Hypothesis stringify_nonempty : ∀ u, stringify u ≠ "".

(** X16: a reload after signing in finds the same user again; after signing out
    it finds none, neither stored item is left, every other item of the
    storage is as it was before signing in, and the home route then shows
    the landing page. *)
Theorem session_round_trip (idToken : string) (userData : User)
    (s : Session (User := User)) :
  (∃ s', load parse
              (localStorage (signIn stringify idToken userData s)) = Js.Resolved s' ∧
         user s' = Some userData) ∧
  let out := (signOut (signIn stringify idToken userData s)).1 in
  user out = None ∧
  localStorage out !! "token" = None ∧
  localStorage out !! "buildingInspectionUser" = None ∧
  (∀ k, k ≠ "token" → k ≠ "buildingInspectionUser" →
        localStorage out !! k = localStorage s !! k) ∧
  (∃ s', load parse (localStorage out) = Js.Resolved s' ∧
         user s' = None ∧
         settle 1 (user s') (signOut (signIn stringify idToken userData s)).2
         = Some Landing).
Proof.
  split.
  - unfold load, signIn, handleLogin. simpl. rewrite lookup_insert_eq.
    rewrite bool_decide_eq_false_2 by apply stringify_nonempty.
    rewrite parse_stringify. eauto.
  - simpl. split; [reflexivity|].
    assert (Huser : ∀ m : gmap string string,
              delete "buildingInspectionUser"
                (delete "buildingInspectionUser" (delete "token" m))
              !! "buildingInspectionUser" = None)
      by (intros m; apply lookup_delete_eq).
    split; [|split; [apply Huser|split]].
    + rewrite !lookup_delete_ne by done. apply lookup_delete_eq.
    + intros k Hk1 Hk2. rewrite !lookup_delete_ne by done.
      by rewrite !lookup_insert_ne by done.
    + unfold load. rewrite Huser. eauto.
Qed.
End SessionFacts.

End AppExtras.

Lemma session_round_trip_witness :
  ∃ s', App.load (λ s, match s with
                       | String _ u => Js.Resolved (Some u)
                       | EmptyString => Js.Rejected "SyntaxError"
                       end)
                 (App.localStorage
                    (App.signIn (λ u : string, ("u" ++ u)%string) "token-1" "ada"
                                {| App.user := None; App.localStorage := ∅ |}))
        = Js.Resolved s' ∧ App.user s' = Some "ada".
Proof.
  apply (session_round_trip (λ u : string, ("u" ++ u)%string)
           (λ s, match s with
                 | String _ u => Js.Resolved (Some u)
                 | EmptyString => Js.Rejected "SyntaxError"
                 end)).
  - reflexivity.
  - discriminate.
Defined.

(** ** The signup form *)

Section SignupExtras.
Import Signup.
Context {CodeUnit : Type} `{EqDecision CodeUnit}.

Lemma errorMessage_nonempty (code message : option string) :
  errorMessage code message ≠ "".
Proof.
  unfold errorMessage. repeat case_bool_decide; try discriminate.
  destruct message as [m|]; [|discriminate]. by case_bool_decide.
Qed.

(** X17: a submit ends with the success flag set exactly when the two passwords
    are equal, the password has at least six code units and every call of
    the attempt went through; in every other case it ends with a message on
    screen, the mismatch being reported before the length. *)
Theorem handleSubmit_outcome (formData : FormData (CodeUnit := CodeUnit))
    (attempt : Attempt) (v : View) :
  success v = false →
  let v' := handleSubmit formData attempt v in
  (success v' = true ↔
   password formData = confirmPassword formData ∧
   (6 ≤ length (password formData))%nat ∧ attempt = Created) ∧
  (success v' = false ↔ errorMsg v' ≠ "") ∧
  (attempts formData = true → loading v' = false) ∧
  (password formData ≠ confirmPassword formData →
   errorMsg v' = "Passwords do not match").
Proof.
  intros Hv. unfold handleSubmit, attempts.
  case_bool_decide as Heq; simpl.
  - destruct (Nat.ltb_spec (length (password formData)) 6); simpl.
    + rewrite Hv.
      repeat split; intros; destruct_and?; simplify_eq; try done; lia.
    + destruct attempt as [|code message]; simpl.
      * repeat split; intros; destruct_and?; simplify_eq; done.
      * pose proof (errorMessage_nonempty code message).
        repeat split; intros; destruct_and?; simplify_eq; done.
  - rewrite Hv.
    repeat split; intros; destruct_and?; simplify_eq; done.
Qed.

End SignupExtras.

Lemma handleSubmit_outcome_witness :
  Signup.success
    (Signup.handleSubmit
       {| Signup.name := [1%nat]; Signup.email := [2%nat];
          Signup.password := [1; 2; 3; 4; 5; 6]%nat;
          Signup.confirmPassword := [1; 2; 3; 4; 5; 6]%nat |}
       Signup.Created
       {| Signup.loading := false; Signup.success := false;
          Signup.errorMsg := "" |}) = true.
Proof.
  apply (handleSubmit_outcome
           {| Signup.name := [1%nat]; Signup.email := [2%nat];
              Signup.password := [1; 2; 3; 4; 5; 6]%nat;
              Signup.confirmPassword := [1; 2; 3; 4; 5; 6]%nat |}
           Signup.Created
           {| Signup.loading := false; Signup.success := false;
              Signup.errorMsg := "" |}).
  - reflexivity.
  - split; [reflexivity|]. split; [simpl; lia|reflexivity].
Defined.
